(** * id_extractor: field extraction and normalisation logic

    A shallow embedding of the bespoke logic of [frenchcarte.py] (French
    national identity card) and [indian_passport.py] (passport): the date
    normaliser, the country code expander, the OCR text field extractor,
    the MRZ field mapper and the field merger, followed by the properties
    proved about them.

    Python values are modelled as follows.
    - [str] is a list of Unicode code points ([N]).
    - [\d], [\s], [str.strip] and [int] follow CPython 3.11 (Unicode 14.0).
    - [re] patterns are regular-expression syntax trees run by a
      backtracking matcher with Python's priorities (leftmost match,
      first alternative first, greedy repetition).
    - a [dict] is an association list in insertion order.
    - an exception is a value of [result]. *)

From Stdlib Require Import List NArith ZArith Bool Lia String Ascii.
From Stdlib Require Import DecimalString.
Import ListNotations.

Set Implicit Arguments.

(* ================================================================= *)
(** ** Python strings *)

Module PyStr.

Definition str := list N.

(** Code points of a UTF-8 encoded literal. *)
Fixpoint utf8 (bs : list N) (pending : nat) (acc : N) : str :=
  match bs with
  | [] => []
  | b :: bs' =>
      match pending with
      | O =>
          if (b <? 128)%N then b :: utf8 bs' 0 0%N
          else if (b <? 224)%N then utf8 bs' 1 (b - 192)%N
          else if (b <? 240)%N then utf8 bs' 2 (b - 224)%N
          else utf8 bs' 3 (b - 240)%N
      | S O => (acc * 64 + (b - 128))%N :: utf8 bs' 0 0%N
      | S p => utf8 bs' p (acc * 64 + (b - 128))%N
      end
  end.

Definition u (s : string) : str :=
  utf8 (map N_of_ascii (list_ascii_of_string s)) 0 0%N.

(** [a == b] *)
Fixpoint eqb (a b : str) : bool :=
  match a, b with
  | [], [] => true
  | x :: a', y :: b' => (x =? y)%N && eqb a' b'
  | _, _ => false
  end.

Lemma eqb_eq (a b : str) : eqb a b = true <-> a = b.
Proof.
  revert b. induction a as [| x a IH]; intros [| y b]; cbn [eqb];
    try (split; [discriminate | congruence]); [tauto |].
  rewrite andb_true_iff, N.eqb_eq, IH. split.
  - intros [-> ->]. reflexivity.
  - intros H. injection H as -> ->. tauto.
Qed.

(** [str.isspace] of one character, which is also [\s] of [re]. *)
Definition space_points : list N :=
  [ 0x9; 0xa; 0xb; 0xc; 0xd; 0x1c; 0x1d; 0x1e; 0x1f; 0x20; 0x85; 0xa0;
    0x1680; 0x2000; 0x2001; 0x2002; 0x2003; 0x2004; 0x2005; 0x2006;
    0x2007; 0x2008; 0x2009; 0x200a; 0x2028; 0x2029; 0x202f; 0x205f;
    0x3000 ]%N.

Definition is_space (c : N) : bool := existsb (N.eqb c) space_points.

(** Decimal digits (category Nd): each block starts at a digit zero and
    counts upwards; the last block holds five runs of ten. *)
Definition digit_blocks : list (N * N) :=
  [ (0x30, 10); (0x660, 10); (0x6f0, 10); (0x7c0, 10); (0x966, 10);
    (0x9e6, 10); (0xa66, 10); (0xae6, 10); (0xb66, 10); (0xbe6, 10);
    (0xc66, 10); (0xce6, 10); (0xd66, 10); (0xde6, 10); (0xe50, 10);
    (0xed0, 10); (0xf20, 10); (0x1040, 10); (0x1090, 10); (0x17e0, 10);
    (0x1810, 10); (0x1946, 10); (0x19d0, 10); (0x1a80, 10); (0x1a90, 10);
    (0x1b50, 10); (0x1bb0, 10); (0x1c40, 10); (0x1c50, 10); (0xa620, 10);
    (0xa8d0, 10); (0xa900, 10); (0xa9d0, 10); (0xa9f0, 10); (0xaa50, 10);
    (0xabf0, 10); (0xff10, 10); (0x104a0, 10); (0x10d30, 10);
    (0x11066, 10); (0x110f0, 10); (0x11136, 10); (0x111d0, 10);
    (0x112f0, 10); (0x11450, 10); (0x114d0, 10); (0x11650, 10);
    (0x116c0, 10); (0x11730, 10); (0x118e0, 10); (0x11950, 10);
    (0x11c50, 10); (0x11d50, 10); (0x11da0, 10); (0x16a60, 10);
    (0x16ac0, 10); (0x16b50, 10); (0x1d7ce, 50); (0x1e140, 10);
    (0x1e2f0, 10); (0x1e950, 10); (0x1fbf0, 10) ]%N.

Fixpoint decimal_in (bl : list (N * N)) (c : N) : option N :=
  match bl with
  | [] => None
  | (lo, len) :: bl' =>
      if ((lo <=? c) && (c <? lo + len))%N then Some ((c - lo) mod 10)%N
      else decimal_in bl' c
  end.

(** [unicodedata.decimal]: the value of a decimal digit. *)
Definition decimal (c : N) : option N := decimal_in digit_blocks c.

(** [\d] of [re], [str.isdecimal] of one character. *)
Definition is_digit (c : N) : bool :=
  match decimal c with Some _ => true | None => false end.

(** Truth value of a string: non-empty. *)
Definition nonempty (s : str) : bool :=
  match s with
  | [] => false
  | _ :: _ => true
  end.

(** [len(s)] is [List.length s]; [s[i:j]] for [0 <= i <= j]. *)
Definition slice (i j : nat) (s : str) : str := firstn (j - i) (skipn i s).

Fixpoint lstrip_by (p : N -> bool) (s : str) : str :=
  match s with
  | c :: s' => if p c then lstrip_by p s' else s
  | [] => []
  end.

Definition strip_by (p : N -> bool) (s : str) : str :=
  rev (lstrip_by p (rev (lstrip_by p s))).

(** [s.strip()] *)
Definition strip (s : str) : str := strip_by is_space s.

Fixpoint starts_with (pre s : str) : bool :=
  match pre, s with
  | [], _ => true
  | _ :: _, [] => false
  | a :: pre', b :: s' => (a =? b)%N && starts_with pre' s'
  end.

(** [sub in s] *)
Fixpoint contains (sub s : str) : bool :=
  starts_with sub s ||
  match s with
  | [] => false
  | _ :: s' => contains sub s'
  end.

(** The scan of [s.replace(old, new)] for a non-empty [old]: [skip]
    counts the characters of an occurrence still to be passed over. *)
Fixpoint replace_scan (old new s : str) (skip : nat) : str :=
  match s with
  | [] => []
  | c :: s' =>
      match skip with
      | S k => replace_scan old new s' k
      | O =>
          if starts_with old s
          then new ++ replace_scan old new s' (List.length old - 1)
          else c :: replace_scan old new s' 0
      end
  end.

(** [s.replace(old, new)]; an empty [old] matches before every
    character and at the end. *)
Definition replace (old new s : str) : str :=
  match old with
  | [] => flat_map (fun c => new ++ [c]) s ++ new
  | _ :: _ => replace_scan old new s 0
  end.

(** Whitespace as [int] sees it: ASCII white space, and any other
    Unicode white space above the ASCII range. *)
Definition int_space (c : N) : bool :=
  existsb (N.eqb c) [9; 10; 11; 12; 13; 32]%N
  || ((128 <=? c)%N && is_space c).

(** Digits with single underscores between them. *)
Fixpoint digits_acc (s : str) (acc : N) (after_digit : bool) : option N :=
  match s with
  | [] => if after_digit then Some acc else None
  | c :: r =>
      match decimal c with
      | Some v => digits_acc r (10 * acc + v)%N true
      | None =>
          if (c =? 0x5f)%N && after_digit then digits_acc r acc false
          else None
      end
  end.

(** [int(s)]; [None] stands for [ValueError]. *)
Definition int_ (s : str) : option Z :=
  let t := strip_by int_space s in
  let '(neg, body) :=
    match t with
    | c :: r =>
        if (c =? 0x2b)%N then (false, r)
        else if (c =? 0x2d)%N then (true, r)
        else (false, t)
    | [] => (false, [])
    end in
  match digits_acc body 0%N false with
  | Some n => Some (if neg then (- Z.of_N n)%Z else Z.of_N n)
  | None => None
  end.

(** [str(n)] for an integer, as an f-string renders it. *)
Definition str_of_Z (z : Z) : str :=
  map N_of_ascii (list_ascii_of_string (NilZero.string_of_int (Z.to_int z))).

End PyStr.

Import PyStr.

(* ================================================================= *)
(** ** Regular expressions of the [re] module *)

Module Re.

(** One member of a character set [[...]]. *)
Inductive item : Type :=
| Lit (c : N)            (* the character itself *)
| Rng (lo hi : N)        (* lo-hi *)
| Digit                  (* \d *)
| Space.                 (* \s *)

Definition cset := list item.

(** The constructs the program's patterns use. Every repetition in them
    is of a single character or character set. *)
Inductive regex : Type :=
| Eps
| In (cs : cset)                  (* one character of the set *)
| Seq (a b : regex)
| Alt (a b : regex)               (* a|b, a tried first *)
| Star (cs : cset)                (* [cs]*, greedy *)
| Group (n : nat) (a : regex).    (* capturing group number n *)

Definition chr (c : N) : regex := In [Lit c].
Definition lit (s : str) : regex := fold_right (fun c r => Seq (chr c) r) Eps s.
Definition opt (a : regex) : regex := Alt a Eps.               (* a? *)
Definition plus (cs : cset) : regex := Seq (In cs) (Star cs).   (* [cs]+ *)
Fixpoint times (n : nat) (a : regex) : regex :=                (* a{n} *)
  match n with
  | O => Eps
  | S n' => Seq a (times n' a)
  end.

Definition points (lo hi : N) : list N :=
  map (fun i => (lo + N.of_nat i)%N) (seq 0 (N.to_nat (hi + 1 - lo))).

(** Captured groups, most recent first. *)
Definition caps := list (nat * str).

Fixpoint group (n : nat) (m : caps) : option str :=
  match m with
  | [] => None
  | (i, s) :: m' => if Nat.eqb i n then Some s else group n m'
  end.

Section Matcher.

(** How a pattern character compares with a text character: [N.eqb],
    or the case-insensitive comparison under [re.IGNORECASE]. *)
Variable same : N -> N -> bool.

Definition item_matches (x : N) (it : item) : bool :=
  match it with
  | Lit c => same c x
  | Rng lo hi => existsb (fun c => same c x) (points lo hi)
  | Digit => is_digit x
  | Space => is_space x
  end.

Definition in_set (cs : cset) (x : N) : bool := existsb (item_matches x) cs.

(** Greedy repetition: the longest run first, then shorter ones. *)
Fixpoint star (p : N -> bool) (s : str) (k : str -> option caps) : option caps :=
  match s with
  | x :: s' =>
      if p x then
        match star p s' k with
        | Some m => Some m
        | None => k s
        end
      else k s
  | [] => k s
  end.

(** Backtracking match of [r] at the head of [s]; [k] is the rest of
    the match, given the remaining text and the groups so far. *)
Fixpoint run (r : regex) (s : str) (m : caps)
         (k : str -> caps -> option caps) : option caps :=
  match r with
  | Eps => k s m
  | In cs =>
      match s with
      | x :: s' => if in_set cs x then k s' m else None
      | [] => None
      end
  | Seq a b => run a s m (fun s' m' => run b s' m' k)
  | Alt a b =>
      match run a s m k with
      | Some res => Some res
      | None => run b s m k
      end
  | Star cs => star (in_set cs) s (fun s' => k s' m)
  | Group n a =>
      run a s m (fun s' m' =>
        k s' ((n, firstn (List.length s - List.length s') s) :: m'))
  end.

(** A match starting exactly at the head of [s]. *)
Definition match_at (r : regex) (s : str) : option caps :=
  run r s [] (fun _ m => Some m).

(** [re.fullmatch] *)
Definition fullmatch (r : regex) (s : str) : option caps :=
  run r s [] (fun s' m => match s' with [] => Some m | _ :: _ => None end).

(** [re.search]: the leftmost position at which a match starts. *)
Fixpoint search (r : regex) (s : str) : option caps :=
  match match_at r s with
  | Some m => Some m
  | None =>
      match s with
      | [] => None
      | _ :: s' => search r s'
      end
  end.

End Matcher.

End Re.

(* ================================================================= *)
(** ** Dictionaries and exceptions *)

Module Dict.

(** A [dict] with string keys and values, in insertion order. *)
Definition dict := list (str * str).

(** [d[k] = v]: an existing key keeps its place. *)
Fixpoint set (k v : str) (d : dict) : dict :=
  match d with
  | [] => [(k, v)]
  | (k', v') :: d' =>
      if PyStr.eqb k' k then (k', v) :: d' else (k', v') :: set k v d'
  end.

Fixpoint get (k : str) (d : dict) : option str :=
  match d with
  | [] => None
  | (k', v') :: d' => if PyStr.eqb k' k then Some v' else get k d'
  end.

(** [d.get(k, default)] *)
Definition get_or (k default : str) (d : dict) : str :=
  match get k d with
  | Some v => v
  | None => default
  end.

(** [d.update(other)] *)
Definition update (d other : dict) : dict :=
  fold_left (fun acc kv => set (fst kv) (snd kv) acc) other d.

(** The display [{k1: v1, ...}]. *)
Definition of_items (items : list (str * str)) : dict := update [] items.

Definition keys (d : dict) : list str := map fst d.

(** Truth value of a dict: non-empty. *)
Definition truthy (d : dict) : bool :=
  match d with
  | [] => false
  | _ :: _ => true
  end.

End Dict.

Inductive exn : Type := ValueError | AttributeError | LookupError.

Inductive result (A : Type) : Type :=
| Ok (a : A)
| Raise (e : exn).
Arguments Ok {A} a.
Arguments Raise {A} e.

Definition bind {A B : Type} (r : result A) (f : A -> result B) : result B :=
  match r with
  | Ok a => f a
  | Raise e => Raise e
  end.

Notation "x <- r ;; k" := (bind r (fun x => k))
  (at level 61, r at next level, right associativity).

(** [try: body  except Exception: handler] *)
Definition try_except {A : Type} (body : result A) (handler : A) : A :=
  match body with
  | Ok a => a
  | Raise _ => handler
  end.

(** What the Python runtime and the [pycountry] package supply. *)
Record runtime : Type := {
  (** [str.upper] *)
  upper : str -> str;
  (** [str.title] *)
  title : str -> str;
  (** [pycountry.countries.get(alpha_3=...)]: the [name] of the country
      found, [None], or an exception. *)
  countries_get : str -> result (option str);
  (** whether a pattern character and a text character are the same
      under [re.IGNORECASE] *)
  same_nocase : N -> N -> bool
}.

Import Re.

(* ================================================================= *)
(** ** frenchcarte.py *)

Module Frenchcarte.

Section Program.

Variable rt : runtime.

(** [get_country_fullname(code)] *)
Definition get_country_fullname (code : str) : str :=
  try_except
    (country <- countries_get rt (upper rt code) ;;
     name <- match country with
             | Some n => Ok n
             | None => Raise AttributeError       (* None.name *)
             end ;;
     Ok (name ++ u " (" ++ upper rt code ++ u ")"))
    code.

(** pattern "\d{6}" *)
Definition re_yymmdd : regex := times 6 (In [Digit]).

(** pattern "(\d{2})[./-](\d{2})[./-](\d{4})" *)
Definition re_dmy : regex :=
  let sep := In [Lit 0x2e; Lit 0x2f; Lit 0x2d] in
  Seq (Group 1 (times 2 (In [Digit])))
 (Seq sep
 (Seq (Group 2 (times 2 (In [Digit])))
 (Seq sep
      (Group 3 (times 4 (In [Digit])))))).

(** [m.group(n)] of a successful match. *)
Definition group_of (n : nat) (m : caps) : str :=
  match group n m with
  | Some s => s
  | None => []
  end.

(** [convert_date(date_str)] *)
Definition convert_date (date_str : str) : result str :=
  let date_str := strip date_str in
  match fullmatch N.eqb re_yymmdd date_str with
  | Some _ =>
      match int_ (firstn 2 date_str) with
      | None => Raise ValueError
      | Some yy =>
          let mm := slice 2 4 date_str in
          let dd := skipn 4 date_str in
          let year := if (30 <? yy)%Z then (1900 + yy)%Z else (2000 + yy)%Z in
          Ok (dd ++ u "/" ++ mm ++ u "/" ++ str_of_Z year)
      end
  | None =>
      match fullmatch N.eqb re_dmy date_str with
      | Some m =>
          Ok (group_of 1 m ++ u "/" ++ group_of 2 m ++ u "/" ++ group_of 3 m)
      | None => Ok date_str
      end
  end.

(** pattern "(?:Taille|T\.|taille)[\s:]*([\d.,]+)" *)
Definition re_taille : regex :=
  Seq (Alt (lit (u "Taille")) (Alt (lit (u "T.")) (lit (u "taille"))))
 (Seq (Star [Space; Lit 0x3a])
      (Group 1 (plus [Digit; Lit 0x2e; Lit 0x2c]))).

Definition non_precise : str := Eval vm_compute in u "Non précisé".

(** [extract_taille(ocr_text)] *)
Definition extract_taille (ocr_text : str) : str :=
  match search N.eqb re_taille ocr_text with
  | Some m => strip (replace (u ",") (u ".") (group_of 1 m))
  | None => non_precise
  end.

(** The tail [\s*[:]?[\s]*] shared by the label patterns. *)
Definition colon_gap (value : regex) : regex :=
  Seq (Star [Space]) (Seq (opt (In [Lit 0x3a])) (Seq (Star [Space]) value)).

(** line 63, its parts spaced out:
    CARTE NATIONALE D '? IDENTITE (?: \s* Ne \s* [:]? [\s]* ) (\d+) *)
Definition re_id : regex :=
  Seq (lit (u "CARTE NATIONALE D"))
 (Seq (opt (chr 0x27))
 (Seq (lit (u "IDENTITE"))
 (Seq (Star [Space])
 (Seq (lit (u "Ne"))
      (colon_gap (Group 1 (plus [Digit]))))))).

(** pattern "Nationalité\s*[:]?[\s]*([A-Za-zéèàùçÉÈÀÙÇ]+)" *)
Definition re_nat : regex :=
  Seq (lit (u "Nationalité"))
      (colon_gap
         (Group 1 (plus ([Rng 0x41 0x5a; Rng 0x61 0x7a]
                         ++ map Lit (u "éèàùçÉÈÀÙÇ"))))).

(** line 71, its parts spaced out:
    (?: BC \s* )? Nom \s* [:]? [\s]* ([A-Z]+) *)
Definition re_nom : regex :=
  Seq (opt (Seq (lit (u "BC")) (Star [Space])))
 (Seq (lit (u "Nom"))
      (colon_gap (Group 1 (plus [Rng 0x41 0x5a])))).

(** pattern "Prénom[\(\{]?[sS]?[}\)]?\s*[:]?[\s]*([A-Z]+)" *)
Definition re_prenom : regex :=
  Seq (lit (u "Prénom"))
 (Seq (opt (In [Lit 0x28; Lit 0x7b]))
 (Seq (opt (In [Lit 0x73; Lit 0x53]))
 (Seq (opt (In [Lit 0x7d; Lit 0x29]))
      (colon_gap (Group 1 (plus [Rng 0x41 0x5a])))))).

(** pattern "Sexe\s*[:]?[\s]*([FM])" *)
Definition re_sexe : regex :=
  Seq (lit (u "Sexe"))
      (colon_gap (Group 1 (In [Lit 0x46; Lit 0x4d]))).

(** pattern "N[éeÉÈ]*[\(\{]?e[\)\}]?\s*(?:le|ie)?\s*[:]?\s*([\d]{2}[./-][\d]{2}[./-][\d]{4})" *)
Definition re_dob : regex :=
  let sep := In [Lit 0x2e; Lit 0x2f; Lit 0x2d] in
  Seq (chr 0x4e)
 (Seq (Star (map Lit (u "éeÉÈ")))
 (Seq (opt (In [Lit 0x28; Lit 0x7b]))
 (Seq (chr 0x65)
 (Seq (opt (In [Lit 0x29; Lit 0x7d]))
 (Seq (Star [Space])
 (Seq (opt (Alt (lit (u "le")) (lit (u "ie"))))
 (Seq (Star [Space])
 (Seq (opt (In [Lit 0x3a]))
 (Seq (Star [Space])
      (Group 1
         (Seq (times 2 (In [Digit]))
         (Seq sep
         (Seq (times 2 (In [Digit]))
         (Seq sep
              (times 4 (In [Digit])))))))))))))))).

(** [re.search(pattern, ocr_text, re.IGNORECASE)] *)
Definition search_i (r : regex) (ocr_text : str) : option caps :=
  search (same_nocase rt) r ocr_text.

(** [if match: info[key] = value(match.group(1))] *)
Definition put_if (found : option caps) (key : str) (value : str -> str)
           (info : Dict.dict) : Dict.dict :=
  match found with
  | Some m => Dict.set key (value (group_of 1 m)) info
  | None => info
  end.

Definition k_id : str := Eval vm_compute in u "Carte nationale d'identité".
Definition k_nat : str := Eval vm_compute in u "Nationalité".
Definition k_nom : str := Eval vm_compute in u "Nom de famille".
Definition k_prenom : str := Eval vm_compute in u "Prénom".
Definition k_sexe : str := Eval vm_compute in u "Sexe".
Definition k_dob : str := Eval vm_compute in u "Né(e) le".
Definition k_taille : str := Eval vm_compute in u "Taille".

(** [extract_info_from_ocr_text(ocr_text)] *)
Definition extract_info_from_ocr_text (ocr_text : str) : result Dict.dict :=
  let info := [] in
  let info := put_if (search_i re_id ocr_text) k_id (fun g => g) info in
  let info := put_if (search_i re_nat ocr_text) k_nat (title rt) info in
  let info := put_if (search_i re_nom ocr_text) k_nom (title rt) info in
  let info := put_if (search_i re_prenom ocr_text) k_prenom (title rt) info in
  let info := put_if (search_i re_sexe ocr_text) k_sexe (upper rt) info in
  info <- match search_i re_dob ocr_text with
          | Some m =>
              d <- convert_date (group_of 1 m) ;;
              Ok (Dict.set k_dob d info)
          | None => Ok info
          end ;;
  Ok (Dict.set k_taille (extract_taille ocr_text) info).

(** The cleaned names of the MRZ record and the first name derived
    from them, lines 98 to 109 of [extract_mrz_info]. *)
Definition clean_name (raw_value : str) : str :=
  title rt (strip (replace (u "<") (u " ") raw_value)).

Definition prenom_of (surname names : str) : str :=
  if nonempty names then
    if nonempty surname && contains surname names then
      let prenom := strip (replace surname [] names) in
      if PyStr.eqb prenom [] then names else prenom
    else names
  else non_precise.

(** [raw.get(key, "")] *)
Definition raw_get (raw : Dict.dict) (key : string) : str :=
  Dict.get_or (u key) [] raw.

(** [raw.get(key, "").replace("<", "").strip()] *)
Definition unfilled (raw : Dict.dict) (key : string) : str :=
  strip (replace (u "<") [] (raw_get raw key)).

(** [extract_mrz_info(image)]. [mrz] is the outcome of
    [read_mrz(image)]: the record [mrz.to_dict()], or [None]. *)
Definition extract_mrz_info (mrz : option Dict.dict) : result Dict.dict :=
  match mrz with
  | Some raw =>
      let surname := clean_name (raw_get raw "surname") in
      let names := clean_name (raw_get raw "names") in
      let prenom := prenom_of surname names in
      let dob_raw := unfilled raw "date_of_birth" in
      let exp_raw := unfilled raw "expiration_date" in
      let sexe :=
        let s := unfilled raw "sex" in
        if nonempty s then s else non_precise in
      dob <- convert_date dob_raw ;;
      exp <- convert_date exp_raw ;;
      Ok (Dict.of_items
            [ (u "MRZ brut", raw_get raw "mrz_text");
              (u "Pays de délivrance", get_country_fullname (raw_get raw "country"));
              (k_id, replace (u "<") [] (raw_get raw "number"));
              (k_nom, surname);
              (k_prenom, prenom);
              (k_nat, get_country_fullname (raw_get raw "nationality"));
              (k_dob, dob);
              (u "Date d'expiration", exp);
              (k_sexe, sexe) ])
  | None => Ok []
  end.

(** The merge of lines 148 to 152. *)
Definition final_info (mrz_info ocr_info : Dict.dict) (taille : str)
  : Dict.dict :=
  let final_info := [] in
  let final_info :=
    if Dict.truthy mrz_info then Dict.update final_info mrz_info
    else final_info in
  let final_info := Dict.update final_info ocr_info in
  Dict.set k_taille taille final_info.

(** The application logic of lines 138 to 152, given the outcome of
    the MRZ decoder and the text of the OCR engine. *)
Definition app (mrz : option Dict.dict) (ocr_text : str) : result Dict.dict :=
  mrz_info <- extract_mrz_info mrz ;;
  ocr_info <- extract_info_from_ocr_text ocr_text ;;
  let taille := extract_taille ocr_text in
  Ok (final_info mrz_info ocr_info taille).

End Program.

End Frenchcarte.

(* ================================================================= *)
(** ** indian_passport.py *)

Module IndianPassport.

Section Program.

Variable rt : runtime.

(** [get_country_fullname(code)] *)
Definition get_country_fullname (code : str) : str :=
  try_except
    (country <- countries_get rt (upper rt code) ;;
     name <- match country with
             | Some n => Ok n
             | None => Raise AttributeError       (* None.name *)
             end ;;
     Ok (name ++ u " (" ++ upper rt code ++ u ")"))
    code.

(** [convert_date(ymd)] *)
Definition convert_date (ymd : str) : result str :=
  if negb (Nat.eqb (List.length ymd) 6) then Ok ymd
  else
    match int_ (firstn 2 ymd) with
    | None => Raise ValueError
    | Some yy =>
        let mm := slice 2 4 ymd in
        let dd := skipn 4 ymd in
        let year := if (30 <? yy)%Z then (1900 + yy)%Z else (2000 + yy)%Z in
        Ok (dd ++ u "/" ++ mm ++ u "/" ++ str_of_Z year)
    end.

(** [raw.get(key, "")] *)
Definition raw_get (raw : Dict.dict) (key : string) : str :=
  Dict.get_or (u key) [] raw.

Definition clean_name (raw_value : str) : str :=
  title rt (strip (replace (u "<") (u " ") raw_value)).

(** [names.replace(surname, "").strip()], line 58. *)
Definition first_name_of (surname names : str) : str :=
  strip (replace surname [] names).

(** [extract_mrz_info(image)]. [mrz] is the outcome of
    [read_mrz(image)]: the record [mrz.to_dict()], or [None]. *)
Definition extract_mrz_info (mrz : option Dict.dict) : result Dict.dict :=
  match mrz with
  | Some raw =>
      let surname := clean_name (raw_get raw "surname") in
      let names := clean_name (raw_get raw "names") in
      let first_name := first_name_of surname names in
      dob <- convert_date (raw_get raw "date_of_birth") ;;
      exp <- convert_date (raw_get raw "expiration_date") ;;
      Ok (Dict.of_items
            [ (u "Raw MRZ", raw_get raw "mrz_text");
              (u "Country Code (Issued By)", get_country_fullname (raw_get raw "country"));
              (u "Passport Number", replace (u "<") [] (raw_get raw "number"));
              (u "Last Name", surname);
              (u "First Name", first_name);
              (u "Nationality", get_country_fullname (raw_get raw "nationality"));
              (u "Date of Birth", dob);
              (u "Expiration Date", exp);
              (u "Sex", raw_get raw "sex") ])
  | None => Ok []
  end.

End Program.

End IndianPassport.

(* ================================================================= *)
(** ** A sample runtime

    ASCII case mappings and a three-entry country table, to run the
    program on concrete inputs. *)

Module Sample.

Definition is_upper (c : N) : bool := ((0x41 <=? c) && (c <=? 0x5a))%N.
Definition is_lower (c : N) : bool := ((0x61 <=? c) && (c <=? 0x7a))%N.
Definition to_upper (c : N) : N := if is_lower c then (c - 32)%N else c.
Definition to_lower (c : N) : N := if is_upper c then (c + 32)%N else c.

Fixpoint title_from (prev_cased : bool) (s : str) : str :=
  match s with
  | [] => []
  | c :: s' =>
      (if prev_cased then to_lower c else to_upper c)
        :: title_from (is_upper c || is_lower c) s'
  end.

Definition countries : list (str * str) :=
  [ (u "FRA", u "France"); (u "IND", u "India"); (u "DEU", u "Germany") ].

Definition rt : runtime := {|
  upper := map to_upper;
  title := title_from false;
  countries_get := fun code => Ok (Dict.get code countries);
  same_nocase := fun a b => (to_lower a =? to_lower b)%N
|}.

End Sample.

(* ================================================================= *)
(** * Properties *)

(** ** Characters: digits and white space *)

Lemma decimal_in_lt10 (bl : list (N * N)) (c v : N) :
  decimal_in bl c = Some v -> (v < 10)%N.
Proof.
  induction bl as [| [lo len] bl IH]; simpl; [discriminate |].
  destruct ((lo <=? c) && (c <? lo + len))%N; [| exact IH].
  intros H; injection H as <-. apply N.mod_lt. discriminate.
Qed.

Lemma decimal_lt10 (c v : N) : decimal c = Some v -> (v < 10)%N.
Proof. apply decimal_in_lt10. Qed.

Lemma is_digit_decimal (c : N) :
  is_digit c = true <-> exists v, decimal c = Some v.
Proof.
  unfold is_digit. destruct (decimal c) as [v |]; split; intros H;
    try reflexivity; try discriminate; [now exists v | now destruct H].
Qed.

Lemma decimal_is_digit (c v : N) : decimal c = Some v -> is_digit c = true.
Proof. intros H. apply is_digit_decimal. now exists v. Qed.

(** No white-space character is a decimal digit. *)
Lemma space_not_digit (c : N) : is_space c = true -> decimal c = None.
Proof.
  unfold is_space. rewrite existsb_exists. intros [x [Hin Heq]].
  apply N.eqb_eq in Heq. subst x. unfold space_points in Hin.
  repeat (destruct Hin as [<- | Hin]; [vm_compute; reflexivity |]).
  destruct Hin.
Qed.

Lemma digit_not_space (c : N) : is_digit c = true -> is_space c = false.
Proof.
  intros H. destruct (is_space c) eqn:E; [| reflexivity].
  apply space_not_digit in E. unfold is_digit in H. now rewrite E in H.
Qed.

Lemma int_space_is_space (c : N) : int_space c = true -> is_space c = true.
Proof.
  unfold int_space. rewrite orb_true_iff, andb_true_iff.
  intros [H | [_ H]]; [| exact H].
  rewrite existsb_exists in H. destruct H as [x [Hin Heq]].
  apply N.eqb_eq in Heq. subst x.
  repeat (destruct Hin as [<- | Hin]; [vm_compute; reflexivity |]).
  destruct Hin.
Qed.

Lemma digit_not_int_space (c : N) : is_digit c = true -> int_space c = false.
Proof.
  intros H. destruct (int_space c) eqn:E; [| reflexivity].
  apply int_space_is_space in E. now rewrite (digit_not_space _ H) in E.
Qed.

(** A digit differs from every character that is none. *)
Lemma digit_neqb (c x : N) :
  is_digit c = true -> decimal x = None -> (c =? x)%N = false.
Proof.
  intros H Hx. apply N.eqb_neq. intros ->.
  unfold is_digit in H. now rewrite Hx in H.
Qed.

(** ** Stripping *)

Lemma strip_by_ends (p : N -> bool) (a z : N) (mid : str) :
  p a = false -> p z = false ->
  strip_by p (a :: mid ++ [z]) = a :: mid ++ [z].
Proof.
  intros Ha Hz. unfold strip_by. cbn [lstrip_by]. rewrite Ha.
  change (a :: mid ++ [z]) with ((a :: mid) ++ [z]).
  rewrite rev_app_distr. cbn [rev app lstrip_by]. rewrite Hz.
  cbn [rev]. rewrite rev_app_distr, rev_involutive. reflexivity.
Qed.

Lemma strip_by_one (p : N -> bool) (a : N) :
  p a = false -> strip_by p [a] = [a].
Proof.
  intros Ha. unfold strip_by. cbn [lstrip_by rev app]. rewrite Ha.
  cbn [rev app lstrip_by]. now rewrite Ha.
Qed.

(** ** [int] of two digits *)

Lemma int_two_digits (a b va vb : N) :
  decimal a = Some va -> decimal b = Some vb ->
  int_ [a; b] = Some (Z.of_N (10 * va + vb)).
Proof.
  intros Ha Hb. unfold int_.
  change [a; b] with (a :: [] ++ [b]).
  rewrite strip_by_ends
    by (apply digit_not_int_space; eapply decimal_is_digit; eassumption).
  cbn [app].
  rewrite !(@digit_neqb a) by (first [eapply decimal_is_digit; eassumption | reflexivity]).
  cbn [digits_acc]. rewrite Ha. cbn [digits_acc]. rewrite Hb.
  cbn [digits_acc]. now rewrite N.mul_0_r, N.add_0_l.
Qed.

(** ** The two date patterns *)

Ltac re_unfold :=
  cbn [fullmatch match_at run times star in_set existsb item_matches
       chr lit opt plus fold_right].

Ltac re_unfold_in H :=
  cbn [fullmatch match_at run times star in_set existsb item_matches
       chr lit opt plus fold_right] in H.

Lemma fullmatch_yymmdd_intro (a b c d e f : N) :
  is_digit a = true -> is_digit b = true -> is_digit c = true ->
  is_digit d = true -> is_digit e = true -> is_digit f = true ->
  fullmatch N.eqb Frenchcarte.re_yymmdd [a; b; c; d; e; f] = Some [].
Proof.
  intros Ha Hb Hc Hd He Hf. unfold Frenchcarte.re_yymmdd. re_unfold.
  now rewrite Ha, Hb, Hc, Hd, He, Hf.
Qed.

Lemma fullmatch_yymmdd_inv (s : str) (m : caps) :
  fullmatch N.eqb Frenchcarte.re_yymmdd s = Some m ->
  exists a b c d e f,
    s = [a; b; c; d; e; f] /\
    is_digit a = true /\ is_digit b = true /\ is_digit c = true /\
    is_digit d = true /\ is_digit e = true /\ is_digit f = true.
Proof.
  unfold Frenchcarte.re_yymmdd.
  destruct s as [| a [| b [| c [| d [| e [| f [| g s]]]]]]]; re_unfold;
    repeat match goal with
           | |- context [is_digit ?x || false] =>
               destruct (is_digit x) eqn:?; cbn [orb]
           end; try discriminate.
  intros _. exists a, b, c, d, e, f. repeat split; assumption.
Qed.

Lemma fullmatch_yymmdd_length (s : str) :
  List.length s <> 6 -> fullmatch N.eqb Frenchcarte.re_yymmdd s = None.
Proof.
  intros Hlen. destruct (fullmatch N.eqb Frenchcarte.re_yymmdd s) as [m |] eqn:E;
    [| reflexivity].
  apply fullmatch_yymmdd_inv in E.
  destruct E as (a & b & c & d & e & f & -> & _). now contradiction Hlen.
Qed.

(** The separators of the delimited pattern. *)
Definition is_sep (x : N) : bool :=
  in_set N.eqb [Lit 0x2e; Lit 0x2f; Lit 0x2d] x.

Lemma is_sep_cases (x : N) :
  is_sep x = true <-> x = 0x2e%N \/ x = 0x2f%N \/ x = 0x2d%N.
Proof.
  unfold is_sep. cbn [in_set existsb item_matches].
  rewrite !orb_true_iff, !N.eqb_eq. intuition congruence.
Qed.

Lemma fullmatch_dmy_intro (d1 d2 s1 m1 m2 s2 y1 y2 y3 y4 : N) :
  is_digit d1 = true -> is_digit d2 = true -> is_sep s1 = true ->
  is_digit m1 = true -> is_digit m2 = true -> is_sep s2 = true ->
  is_digit y1 = true -> is_digit y2 = true ->
  is_digit y3 = true -> is_digit y4 = true ->
  fullmatch N.eqb Frenchcarte.re_dmy [d1; d2; s1; m1; m2; s2; y1; y2; y3; y4]
  = Some [(3, [y1; y2; y3; y4]); (2, [m1; m2]); (1, [d1; d2])].
Proof.
  intros Hd1 Hd2 Hs1 Hm1 Hm2 Hs2 Hy1 Hy2 Hy3 Hy4.
  unfold Frenchcarte.re_dmy. cbn [fullmatch run times].
  fold (is_sep s1). fold (is_sep s2).
  cbn [in_set existsb item_matches].
  rewrite Hd1; cbn [orb]. rewrite Hd2; cbn [orb]. rewrite Hs1.
  rewrite Hm1; cbn [orb]. rewrite Hm2; cbn [orb]. rewrite Hs2.
  rewrite Hy1; cbn [orb]. rewrite Hy2; cbn [orb].
  rewrite Hy3; cbn [orb]. rewrite Hy4; cbn [orb].
  reflexivity.
Qed.

(** ** More on stripping: [strip] is idempotent *)

Definition clean_head (p : N -> bool) (s : str) : Prop :=
  match s with
  | [] => True
  | c :: _ => p c = false
  end.

Lemma lstrip_by_clean (p : N -> bool) (s : str) : clean_head p (lstrip_by p s).
Proof.
  induction s as [| c s IH]; cbn [lstrip_by]; [exact I |].
  destruct (p c) eqn:E; [exact IH | exact E].
Qed.

Lemma lstrip_by_id (p : N -> bool) (s : str) :
  clean_head p s -> lstrip_by p s = s.
Proof.
  destruct s as [| c s]; cbn [clean_head lstrip_by]; [reflexivity |].
  now intros ->.
Qed.

Lemma lstrip_by_suffix (p : N -> bool) (s : str) :
  exists pre, s = pre ++ lstrip_by p s.
Proof.
  induction s as [| c s [pre IH]]; cbn [lstrip_by]; [now exists [] |].
  destruct (p c); [| now exists []].
  exists (c :: pre). cbn [app]. now f_equal.
Qed.

Lemma strip_by_clean (p : N -> bool) (s : str) :
  clean_head p (strip_by p s) /\ clean_head p (rev (strip_by p s)).
Proof.
  unfold strip_by. rewrite rev_involutive.
  set (t := lstrip_by p s). set (r := lstrip_by p (rev t)).
  split; [| apply lstrip_by_clean].
  destruct (lstrip_by_suffix p (rev t)) as [pre Hpre]. fold r in Hpre.
  assert (Ht : t = rev r ++ rev pre)
    by (rewrite <- rev_app_distr, <- Hpre; symmetry; apply rev_involutive).
  pose proof (lstrip_by_clean p s) as Hc. fold t in Hc.
  destruct (rev r) as [| c q]; [exact I |].
  rewrite Ht in Hc. exact Hc.
Qed.

Lemma strip_by_idem (p : N -> bool) (s : str) :
  strip_by p (strip_by p s) = strip_by p s.
Proof.
  destruct (strip_by_clean p s) as [H1 H2].
  unfold strip_by at 1.
  rewrite (lstrip_by_id _ _ H1), (lstrip_by_id _ _ H2).
  apply rev_involutive.
Qed.

Lemma strip_idem (s : str) : strip (strip s) = strip s.
Proof. apply strip_by_idem. Qed.

(** ** The date normalisers *)

Lemma strip_six_digits (a b c d e f : N) :
  is_digit a = true -> is_digit f = true ->
  strip [a; b; c; d; e; f] = [a; b; c; d; e; f].
Proof.
  intros Ha Hf. unfold strip.
  change [a; b; c; d; e; f] with (a :: [b; c; d; e] ++ [f]).
  apply strip_by_ends; now apply digit_not_space.
Qed.

Lemma fr_convert_yymmdd (y1 y2 m1 m2 d1 d2 v1 v2 : N) :
  decimal y1 = Some v1 -> decimal y2 = Some v2 ->
  is_digit m1 = true -> is_digit m2 = true ->
  is_digit d1 = true -> is_digit d2 = true ->
  Frenchcarte.convert_date [y1; y2; m1; m2; d1; d2]
  = Ok ([d1; d2] ++ u "/" ++ [m1; m2] ++ u "/"
        ++ str_of_Z (let yy := Z.of_N (10 * v1 + v2) in
                     if (30 <? yy)%Z then 1900 + yy else 2000 + yy)%Z).
Proof.
  intros H1 H2 Hm1 Hm2 Hd1 Hd2.
  pose proof (decimal_is_digit _ H1) as Hy1.
  pose proof (decimal_is_digit _ H2) as Hy2.
  unfold Frenchcarte.convert_date.
  rewrite strip_six_digits by assumption.
  rewrite fullmatch_yymmdd_intro by assumption.
  cbn [firstn]. rewrite (int_two_digits _ _ H1 H2). reflexivity.
Qed.

Lemma pp_convert_yymmdd (y1 y2 m1 m2 d1 d2 v1 v2 : N) :
  decimal y1 = Some v1 -> decimal y2 = Some v2 ->
  IndianPassport.convert_date [y1; y2; m1; m2; d1; d2]
  = Ok ([d1; d2] ++ u "/" ++ [m1; m2] ++ u "/"
        ++ str_of_Z (let yy := Z.of_N (10 * v1 + v2) in
                     if (30 <? yy)%Z then 1900 + yy else 2000 + yy)%Z).
Proof.
  intros H1 H2. unfold IndianPassport.convert_date.
  cbn [List.length Nat.eqb negb firstn].
  rewrite (int_two_digits _ _ H1 H2). reflexivity.
Qed.

Lemma fr_convert_dmy (d1 d2 s1 m1 m2 s2 y1 y2 y3 y4 : N) :
  is_digit d1 = true -> is_digit d2 = true -> is_sep s1 = true ->
  is_digit m1 = true -> is_digit m2 = true -> is_sep s2 = true ->
  is_digit y1 = true -> is_digit y2 = true ->
  is_digit y3 = true -> is_digit y4 = true ->
  Frenchcarte.convert_date [d1; d2; s1; m1; m2; s2; y1; y2; y3; y4]
  = Ok ([d1; d2] ++ u "/" ++ [m1; m2] ++ u "/" ++ [y1; y2; y3; y4]).
Proof.
  intros Hd1 Hd2 Hs1 Hm1 Hm2 Hs2 Hy1 Hy2 Hy3 Hy4.
  unfold Frenchcarte.convert_date.
  assert (Hst : strip [d1; d2; s1; m1; m2; s2; y1; y2; y3; y4]
                = [d1; d2; s1; m1; m2; s2; y1; y2; y3; y4]).
  { unfold strip.
    change [d1; d2; s1; m1; m2; s2; y1; y2; y3; y4]
      with (d1 :: [d2; s1; m1; m2; s2; y1; y2; y3] ++ [y4]).
    apply strip_by_ends; now apply digit_not_space. }
  rewrite Hst.
  rewrite fullmatch_yymmdd_length by (cbn; lia).
  rewrite fullmatch_dmy_intro by assumption. reflexivity.
Qed.

Lemma fr_convert_fallback (s : str) :
  fullmatch N.eqb Frenchcarte.re_yymmdd (strip s) = None ->
  fullmatch N.eqb Frenchcarte.re_dmy (strip s) = None ->
  Frenchcarte.convert_date s = Ok (strip s).
Proof.
  intros H6 H10. unfold Frenchcarte.convert_date. now rewrite H6, H10.
Qed.

Lemma fr_convert_total (s : str) : exists r, Frenchcarte.convert_date s = Ok r.
Proof.
  unfold Frenchcarte.convert_date.
  destruct (fullmatch N.eqb Frenchcarte.re_yymmdd (strip s)) as [m |] eqn:E.
  - apply fullmatch_yymmdd_inv in E.
    destruct E as (a & b & c & d & e & f & -> & Ha & Hb & _).
    apply is_digit_decimal in Ha, Hb.
    destruct Ha as [va Ha], Hb as [vb Hb].
    cbn [firstn]. rewrite (int_two_digits _ _ Ha Hb). eexists. reflexivity.
  - destruct (fullmatch N.eqb Frenchcarte.re_dmy (strip s));
      eexists; reflexivity.
Qed.

Lemma fr_convert_strip (s : str) :
  Frenchcarte.convert_date s = Frenchcarte.convert_date (strip s).
Proof. unfold Frenchcarte.convert_date. now rewrite strip_idem. Qed.

Lemma pp_convert_other_length (s : str) :
  List.length s <> 6 -> IndianPassport.convert_date s = Ok s.
Proof.
  intros H. unfold IndianPassport.convert_date.
  destruct (Nat.eqb (List.length s) 6) eqn:E; [| reflexivity].
  apply Nat.eqb_eq in E. contradiction.
Qed.

(** Two and four ASCII digits of a number, to build dates from numbers. *)
Definition two_digits (n : N) : str :=
  [0x30 + n / 10; 0x30 + n mod 10]%N.

Definition four_digits (n : N) : str :=
  [0x30 + n / 1000; 0x30 + (n / 100) mod 10;
   0x30 + (n / 10) mod 10; 0x30 + n mod 10]%N.

Lemma decimal_ascii (k : N) : (k < 10)%N -> decimal (0x30 + k) = Some k.
Proof.
  intros Hk. unfold decimal, digit_blocks. cbn [decimal_in].
  replace ((48 <=? 48 + k)%N) with true by (symmetry; apply N.leb_le; lia).
  replace ((48 + k <? 48 + 10)%N) with true by (symmetry; apply N.ltb_lt; lia).
  cbn [andb]. f_equal.
  replace (48 + k - 48)%N with k by lia. now apply N.mod_small.
Qed.

Lemma is_digit_ascii (k : N) : (k < 10)%N -> is_digit (0x30 + k) = true.
Proof. intros Hk. apply (decimal_is_digit _ (decimal_ascii Hk)). Qed.

Lemma div10_lt10 (n : N) : (n < 100)%N -> (n / 10 < 10)%N.
Proof. intros H. apply N.Div0.div_lt_upper_bound. lia. Qed.

Lemma mod10_lt10 (n : N) : (n mod 10 < 10)%N.
Proof. apply N.mod_lt. discriminate. Qed.

(** ** Claims about the date normaliser *)

(** C1: for every string of exactly six decimal digits YYMMDD, both
    [convert_date] functions return "DD/MM/year", where year is
    1900 + YY when YY > 30 and 2000 + YY when YY <= 30. *)
Theorem C1_six_digits_century (y1 y2 m1 m2 d1 d2 v1 v2 : N) :
  decimal y1 = Some v1 -> decimal y2 = Some v2 ->
  is_digit m1 = true -> is_digit m2 = true ->
  is_digit d1 = true -> is_digit d2 = true ->
  let yy := Z.of_N (10 * v1 + v2) in
  let year := if (30 <? yy)%Z then (1900 + yy)%Z else (2000 + yy)%Z in
  Frenchcarte.convert_date [y1; y2; m1; m2; d1; d2]
  = Ok ([d1; d2] ++ u "/" ++ [m1; m2] ++ u "/" ++ str_of_Z year)
  /\ IndianPassport.convert_date [y1; y2; m1; m2; d1; d2]
     = Ok ([d1; d2] ++ u "/" ++ [m1; m2] ++ u "/" ++ str_of_Z year).
Proof.
  intros H1 H2 Hm1 Hm2 Hd1 Hd2 yy year. split.
  - now apply fr_convert_yymmdd.
  - now apply pp_convert_yymmdd.
Qed.

Lemma C1_six_digits_century_witness :
  (Frenchcarte.convert_date (u "850101") = Ok (u "01/01/1985")
   /\ IndianPassport.convert_date (u "850101") = Ok (u "01/01/1985"))
  /\ (Frenchcarte.convert_date (u "050101") = Ok (u "01/01/2005")
      /\ IndianPassport.convert_date (u "050101") = Ok (u "01/01/2005")).
Proof.
  split.
  - exact (@C1_six_digits_century 0x38 0x35 0x30 0x31 0x30 0x31 8 5
             eq_refl eq_refl eq_refl eq_refl eq_refl eq_refl).
  - exact (@C1_six_digits_century 0x30 0x35 0x30 0x31 0x30 0x31 0 5
             eq_refl eq_refl eq_refl eq_refl eq_refl eq_refl).
Defined.

(** C2, as stated, fails: the identity-card normaliser returns the
    stripped text, not the original, for an input that matches neither
    pattern; and the passport normaliser raises [ValueError] on six
    characters that are not digits. *)
Lemma C2_counterexample :
  fullmatch N.eqb Frenchcarte.re_yymmdd (u " abc ") = None
  /\ fullmatch N.eqb Frenchcarte.re_dmy (u " abc ") = None
  /\ Frenchcarte.convert_date (u " abc ") = Ok (u "abc")
  /\ Frenchcarte.convert_date (u " abc ") <> Ok (u " abc ")
  /\ IndianPassport.convert_date (u "abcdef") = Raise ValueError.
Proof.
  repeat split; try reflexivity. discriminate.
Qed.

(** C2, amended: when the stripped input matches neither the six-digit
    pattern nor the delimited pattern, the identity-card normaliser
    returns the stripped input; it raises on no input at all; and the
    passport normaliser returns every input whose length is not 6
    unchanged. *)
Theorem C2_fallback_returns_stripped (s : str) :
  (fullmatch N.eqb Frenchcarte.re_yymmdd (strip s) = None ->
   fullmatch N.eqb Frenchcarte.re_dmy (strip s) = None ->
   Frenchcarte.convert_date s = Ok (strip s))
  /\ (exists r, Frenchcarte.convert_date s = Ok r)
  /\ (List.length s <> 6 -> IndianPassport.convert_date s = Ok s).
Proof.
  split; [apply fr_convert_fallback |].
  split; [apply fr_convert_total | apply pp_convert_other_length].
Qed.

Lemma C2_fallback_returns_stripped_witness :
  Frenchcarte.convert_date (u " unknown") = Ok (u "unknown")
  /\ IndianPassport.convert_date (u " unknown") = Ok (u " unknown").
Proof.
  destruct (C2_fallback_returns_stripped (u " unknown")) as (H1 & _ & H3).
  split.
  - apply H1; reflexivity.
  - apply H3. cbn. lia.
Defined.

(** C7: for every input of the shape two digits, separator, two digits,
    separator, four digits, with separators among '.', '/' and '-', the
    identity-card normaliser returns the same digit groups joined by
    '/'. *)
Theorem C7_delimited_date (d1 d2 s1 m1 m2 s2 y1 y2 y3 y4 : N) :
  is_digit d1 = true -> is_digit d2 = true ->
  List.In s1 (u "./-") ->
  is_digit m1 = true -> is_digit m2 = true ->
  List.In s2 (u "./-") ->
  is_digit y1 = true -> is_digit y2 = true ->
  is_digit y3 = true -> is_digit y4 = true ->
  Frenchcarte.convert_date [d1; d2; s1; m1; m2; s2; y1; y2; y3; y4]
  = Ok ([d1; d2] ++ u "/" ++ [m1; m2] ++ u "/" ++ [y1; y2; y3; y4]).
Proof.
  intros Hd1 Hd2 Hs1 Hm1 Hm2 Hs2 Hy1 Hy2 Hy3 Hy4.
  apply fr_convert_dmy; try assumption; apply is_sep_cases.
  - cbn in Hs1. intuition congruence.
  - cbn in Hs2. intuition congruence.
Qed.

Lemma C7_delimited_date_witness :
  Frenchcarte.convert_date (u "15.07.1990") = Ok (u "15/07/1990").
Proof.
  apply (@C7_delimited_date 0x31 0x35 0x2e 0x30 0x37 0x2e 0x31 0x39 0x39 0x30);
    try reflexivity; cbn; tauto.
Defined.

(** C9: the identity-card normaliser strips white space around its
    input before matching, so " 850101 " and " 15.07.1990 ", which do
    not match the patterns themselves, are normalised all the same; the
    passport normaliser does not strip and returns " 850101 " as it
    is. *)
Theorem C9_idcard_strips_first :
  (forall s, Frenchcarte.convert_date s = Frenchcarte.convert_date (strip s))
  /\ fullmatch N.eqb Frenchcarte.re_yymmdd (u " 850101 ") = None
  /\ Frenchcarte.convert_date (u " 850101 ") = Ok (u "01/01/1985")
  /\ fullmatch N.eqb Frenchcarte.re_dmy (u " 15.07.1990 ") = None
  /\ Frenchcarte.convert_date (u " 15.07.1990 ") = Ok (u "15/07/1990")
  /\ IndianPassport.convert_date (u " 850101 ") = Ok (u " 850101 ")
  /\ IndianPassport.convert_date (u " 15.07.1990 ") = Ok (u " 15.07.1990 ").
Proof.
  split; [exact fr_convert_strip |]. repeat split; reflexivity.
Qed.

(** C10: neither normaliser checks the calendar: whatever the two-digit
    day and month, from 00 to 99, the digits are reordered. *)
Theorem C10_no_calendar_check (dd mm yy yyyy s1 s2 : N) :
  (dd < 100)%N -> (mm < 100)%N -> (yy < 100)%N -> (yyyy < 10000)%N ->
  List.In s1 (u "./-") -> List.In s2 (u "./-") ->
  let year := if (30 <? Z.of_N yy)%Z
              then (1900 + Z.of_N yy)%Z else (2000 + Z.of_N yy)%Z in
  Frenchcarte.convert_date (two_digits yy ++ two_digits mm ++ two_digits dd)
  = Ok (two_digits dd ++ u "/" ++ two_digits mm ++ u "/" ++ str_of_Z year)
  /\ IndianPassport.convert_date (two_digits yy ++ two_digits mm ++ two_digits dd)
     = Ok (two_digits dd ++ u "/" ++ two_digits mm ++ u "/" ++ str_of_Z year)
  /\ Frenchcarte.convert_date
       (two_digits dd ++ [s1] ++ two_digits mm ++ [s2] ++ four_digits yyyy)
     = Ok (two_digits dd ++ u "/" ++ two_digits mm ++ u "/" ++ four_digits yyyy).
Proof.
  intros Hdd Hmm Hyy Hyyyy Hs1 Hs2 year.
  assert (Hval : (10 * (yy / 10) + yy mod 10)%N = yy)
    by (symmetry; apply N.div_mod; discriminate).
  pose proof (div10_lt10 Hdd). pose proof (div10_lt10 Hmm).
  pose proof (div10_lt10 Hyy).
  pose proof (mod10_lt10 dd). pose proof (mod10_lt10 mm).
  pose proof (mod10_lt10 yy).
  unfold two_digits, four_digits. cbn [app].
  split; [| split].
  - rewrite (@fr_convert_yymmdd _ _ _ _ _ _ (yy / 10) (yy mod 10))
      by (first [now apply decimal_ascii | now apply is_digit_ascii]).
    cbv zeta. now rewrite Hval.
  - rewrite (@pp_convert_yymmdd _ _ _ _ _ _ (yy / 10) (yy mod 10))
      by (now apply decimal_ascii).
    cbv zeta. now rewrite Hval.
  - apply fr_convert_dmy;
      try (apply is_digit_ascii; first [assumption | apply mod10_lt10]).
    + apply is_sep_cases. cbn in Hs1. intuition congruence.
    + apply is_sep_cases. cbn in Hs2. intuition congruence.
    + apply is_digit_ascii. apply N.Div0.div_lt_upper_bound. lia.
Qed.

Lemma C10_no_calendar_check_witness :
  Frenchcarte.convert_date (u "999999") = Ok (u "99/99/1999")
  /\ IndianPassport.convert_date (u "999999") = Ok (u "99/99/1999")
  /\ Frenchcarte.convert_date (u "99-99-9999") = Ok (u "99/99/9999").
Proof.
  apply (@C10_no_calendar_check 99 99 99 9999 0x2d 0x2d);
    try (cbn; lia); cbn; tauto.
Defined.

(** ** The country code expander *)

(** C3: [get_country_fullname] returns "<name> (<CODE uppercased>)" when
    the upper-cased code resolves in the country table, and the code
    unchanged when the table has no entry or the lookup raises; it
    raises nothing itself. *)
Theorem C3_country_fullname_total (rt : runtime) (code : str) :
  (forall name,
      countries_get rt (upper rt code) = Ok (Some name) ->
      Frenchcarte.get_country_fullname rt code
      = name ++ u " (" ++ upper rt code ++ u ")"
      /\ IndianPassport.get_country_fullname rt code
         = name ++ u " (" ++ upper rt code ++ u ")")
  /\ (countries_get rt (upper rt code) = Ok None ->
      Frenchcarte.get_country_fullname rt code = code
      /\ IndianPassport.get_country_fullname rt code = code)
  /\ (forall e,
         countries_get rt (upper rt code) = Raise e ->
         Frenchcarte.get_country_fullname rt code = code
         /\ IndianPassport.get_country_fullname rt code = code).
Proof.
  unfold Frenchcarte.get_country_fullname, IndianPassport.get_country_fullname.
  repeat split; intros; match goal with H : countries_get _ _ = _ |- _ =>
    rewrite H end; reflexivity.
Qed.

Lemma C3_country_fullname_total_witness :
  Frenchcarte.get_country_fullname Sample.rt (u "FRA") = u "France (FRA)"
  /\ IndianPassport.get_country_fullname Sample.rt (u "fra") = u "France (FRA)"
  /\ Frenchcarte.get_country_fullname Sample.rt (u "ZZZ") = u "ZZZ"
  /\ IndianPassport.get_country_fullname Sample.rt [] = [].
Proof.
  destruct (C3_country_fullname_total Sample.rt (u "FRA")) as (H1 & _ & _).
  destruct (C3_country_fullname_total Sample.rt (u "fra")) as (H2 & _ & _).
  destruct (C3_country_fullname_total Sample.rt (u "ZZZ")) as (_ & H3 & _).
  destruct (C3_country_fullname_total Sample.rt []) as (_ & H4 & _).
  split; [| split; [| split]].
  - apply (H1 (u "France")). reflexivity.
  - apply (H2 (u "France")). reflexivity.
  - apply H3. reflexivity.
  - apply H4. reflexivity.
Defined.

(** ** The first name of the MRZ mapper *)

Lemma starts_with_refl (s : str) : starts_with s s = true.
Proof.
  induction s as [| c s IH]; cbn [starts_with]; [reflexivity |].
  now rewrite N.eqb_refl, IH.
Qed.

Lemma replace_scan_skip_all (old new s : str) (skip : nat) :
  List.length s <= skip -> replace_scan old new s skip = [].
Proof.
  revert skip. induction s as [| c s IH]; intros skip H;
    cbn [replace_scan]; [reflexivity |].
  destruct skip as [| k]; cbn [List.length] in H; [lia |].
  apply IH. lia.
Qed.

(** Removing a non-empty string from itself leaves nothing. *)
Lemma replace_self (s : str) : s <> [] -> replace s [] s = [].
Proof.
  destruct s as [| c s]; [congruence | intros _].
  unfold replace. cbn [replace_scan].
  rewrite (starts_with_refl (c :: s)). cbn [app List.length].
  apply replace_scan_skip_all. lia.
Qed.

Lemma nonempty_true (s : str) : s <> [] -> nonempty s = true.
Proof. destruct s; [congruence | reflexivity]. Qed.

(** The nine labels of a mapped MRZ record are distinct, so the display
    keeps all nine entries in order. *)
Lemma fr_mrz_items (v1 v2 v3 v4 v5 v6 v7 v8 v9 : str) :
  Dict.of_items
    [ (u "MRZ brut", v1); (u "Pays de délivrance", v2);
      (Frenchcarte.k_id, v3); (Frenchcarte.k_nom, v4);
      (Frenchcarte.k_prenom, v5); (Frenchcarte.k_nat, v6);
      (Frenchcarte.k_dob, v7); (u "Date d'expiration", v8);
      (Frenchcarte.k_sexe, v9) ]
  = [ (u "MRZ brut", v1); (u "Pays de délivrance", v2);
      (Frenchcarte.k_id, v3); (Frenchcarte.k_nom, v4);
      (Frenchcarte.k_prenom, v5); (Frenchcarte.k_nat, v6);
      (Frenchcarte.k_dob, v7); (u "Date d'expiration", v8);
      (Frenchcarte.k_sexe, v9) ].
Proof. vm_compute. reflexivity. Qed.

Lemma pp_mrz_items (v1 v2 v3 v4 v5 v6 v7 v8 v9 : str) :
  Dict.of_items
    [ (u "Raw MRZ", v1); (u "Country Code (Issued By)", v2);
      (u "Passport Number", v3); (u "Last Name", v4);
      (u "First Name", v5); (u "Nationality", v6);
      (u "Date of Birth", v7); (u "Expiration Date", v8);
      (u "Sex", v9) ]
  = [ (u "Raw MRZ", v1); (u "Country Code (Issued By)", v2);
      (u "Passport Number", v3); (u "Last Name", v4);
      (u "First Name", v5); (u "Nationality", v6);
      (u "Date of Birth", v7); (u "Expiration Date", v8);
      (u "Sex", v9) ].
Proof. vm_compute. reflexivity. Qed.

Lemma fr_mrz_get_prenom (v1 v2 v3 v4 v5 v6 v7 v8 v9 : str) :
  Dict.get Frenchcarte.k_prenom
    [ (u "MRZ brut", v1); (u "Pays de délivrance", v2);
      (Frenchcarte.k_id, v3); (Frenchcarte.k_nom, v4);
      (Frenchcarte.k_prenom, v5); (Frenchcarte.k_nat, v6);
      (Frenchcarte.k_dob, v7); (u "Date d'expiration", v8);
      (Frenchcarte.k_sexe, v9) ]
  = Some v5.
Proof. vm_compute. reflexivity. Qed.

Lemma pp_mrz_get_first_name (v1 v2 v3 v4 v5 v6 v7 v8 v9 : str) :
  Dict.get (u "First Name")
    [ (u "Raw MRZ", v1); (u "Country Code (Issued By)", v2);
      (u "Passport Number", v3); (u "Last Name", v4);
      (u "First Name", v5); (u "Nationality", v6);
      (u "Date of Birth", v7); (u "Expiration Date", v8);
      (u "Sex", v9) ]
  = Some v5.
Proof. vm_compute. reflexivity. Qed.

(** The identity-card mapper raises on no record. *)
Lemma fr_extract_mrz_info_some (rt : runtime) (raw : Dict.dict) :
  exists dob exp,
    Frenchcarte.convert_date (Frenchcarte.unfilled raw "date_of_birth") = Ok dob
    /\ Frenchcarte.convert_date (Frenchcarte.unfilled raw "expiration_date") = Ok exp
    /\ Frenchcarte.extract_mrz_info rt (Some raw)
       = Ok [ (u "MRZ brut", Frenchcarte.raw_get raw "mrz_text");
              (u "Pays de délivrance",
               Frenchcarte.get_country_fullname rt (Frenchcarte.raw_get raw "country"));
              (Frenchcarte.k_id, replace (u "<") [] (Frenchcarte.raw_get raw "number"));
              (Frenchcarte.k_nom,
               Frenchcarte.clean_name rt (Frenchcarte.raw_get raw "surname"));
              (Frenchcarte.k_prenom,
               Frenchcarte.prenom_of
                 (Frenchcarte.clean_name rt (Frenchcarte.raw_get raw "surname"))
                 (Frenchcarte.clean_name rt (Frenchcarte.raw_get raw "names")));
              (Frenchcarte.k_nat,
               Frenchcarte.get_country_fullname rt (Frenchcarte.raw_get raw "nationality"));
              (Frenchcarte.k_dob, dob);
              (u "Date d'expiration", exp);
              (Frenchcarte.k_sexe,
               if nonempty (Frenchcarte.unfilled raw "sex")
               then Frenchcarte.unfilled raw "sex"
               else Frenchcarte.non_precise) ].
Proof.
  destruct (fr_convert_total (Frenchcarte.unfilled raw "date_of_birth")) as [dob Hd].
  destruct (fr_convert_total (Frenchcarte.unfilled raw "expiration_date")) as [exp He].
  exists dob, exp. split; [exact Hd |]. split; [exact He |].
  unfold Frenchcarte.extract_mrz_info. rewrite Hd, He. cbn [bind].
  now rewrite fr_mrz_items.
Qed.

Lemma pp_extract_mrz_info_first_name (rt : runtime) (raw info : Dict.dict) :
  IndianPassport.extract_mrz_info rt (Some raw) = Ok info ->
  Dict.get (u "First Name") info
  = Some (IndianPassport.first_name_of
            (IndianPassport.clean_name rt (IndianPassport.raw_get raw "surname"))
            (IndianPassport.clean_name rt (IndianPassport.raw_get raw "names"))).
Proof.
  unfold IndianPassport.extract_mrz_info.
  destruct (IndianPassport.convert_date (IndianPassport.raw_get raw "date_of_birth"))
    as [dob | e]; cbn [bind]; [| discriminate].
  destruct (IndianPassport.convert_date (IndianPassport.raw_get raw "expiration_date"))
    as [exp | e]; cbn [bind]; [| discriminate].
  rewrite pp_mrz_items. intros H. injection H as <-.
  apply pp_mrz_get_first_name.
Qed.

(** ** Substrings, removal and trimming, said without the code's
    functions *)

(** [t] trimmed is [core]: [t] is [core] between two runs of white
    space, and [core] neither starts nor ends with white space. *)
Definition trims_to (t core : str) : Prop :=
  exists ws1 ws2,
    t = ws1 ++ core ++ ws2
    /\ Forall (fun c => is_space c = true) ws1
    /\ Forall (fun c => is_space c = true) ws2
    /\ clean_head is_space core
    /\ clean_head is_space (rev core).

Lemma starts_with_iff (sub s : str) :
  starts_with sub s = true <-> exists b, s = sub ++ b.
Proof.
  revert s. induction sub as [| c sub IH]; intros s; cbn [starts_with app].
  - split; [intros _; now exists s | reflexivity].
  - destruct s as [| x s].
    + split; [discriminate | intros [b H]; discriminate].
    + rewrite andb_true_iff, N.eqb_eq, IH. split.
      * intros [-> [b ->]]. now exists b.
      * intros [b H]. injection H as -> ->. split; [reflexivity | now exists b].
Qed.

(** [sub in s] says that [s] is some text, [sub], and some more text. *)
Lemma contains_iff (sub s : str) :
  contains sub s = true <-> exists a b, s = a ++ sub ++ b.
Proof.
  induction s as [| x s IH].
  - cbn [contains]. rewrite orb_false_r, starts_with_iff. split.
    + intros [b H]. now exists [], b.
    + intros [a [b H]]. destruct a as [| y a]; [now exists b | discriminate].
  - change (contains sub (x :: s))
      with (starts_with sub (x :: s) || contains sub s).
    rewrite orb_true_iff, starts_with_iff, IH. split.
    + intros [[b H] | [a [b H]]]; [now exists [], b |].
      exists (x :: a), b. cbn [app]. now f_equal.
    + intros [a [b H]]. destruct a as [| y a].
      * left. now exists b.
      * right. injection H as -> H. now exists a, b.
Qed.

Lemma lstrip_by_app (p : N -> bool) (ws t : str) :
  Forall (fun c => p c = true) ws -> lstrip_by p (ws ++ t) = lstrip_by p t.
Proof.
  induction 1 as [| c ws Hc _ IH]; cbn [app lstrip_by]; [reflexivity |].
  now rewrite Hc.
Qed.

Lemma lstrip_by_all (p : N -> bool) (ws : str) :
  Forall (fun c => p c = true) ws -> lstrip_by p ws = [].
Proof.
  intros H. rewrite <- (app_nil_r ws). rewrite lstrip_by_app by exact H.
  reflexivity.
Qed.

(** [strip] trims. *)
Lemma strip_trims (t core : str) : trims_to t core -> strip t = core.
Proof.
  intros (ws1 & ws2 & -> & H1 & H2 & Hc & Hr).
  unfold strip, strip_by. rewrite lstrip_by_app by exact H1.
  destruct core as [| c core].
  - cbn [app]. rewrite (@lstrip_by_all is_space ws2 H2). reflexivity.
  - assert (Hc' : clean_head is_space ((c :: core) ++ ws2)) by exact Hc.
    rewrite (lstrip_by_id _ _ Hc'), rev_app_distr.
    rewrite lstrip_by_app by (apply Forall_rev; exact H2).
    rewrite (lstrip_by_id _ _ Hr). apply rev_involutive.
Qed.

Lemma replace_scan_skip (old new l s : str) :
  replace_scan old new (l ++ s) (List.length l) = replace_scan old new s 0.
Proof.
  induction l as [| c l IH]; [reflexivity |].
  cbn [app List.length replace_scan]. exact IH.
Qed.

(** Nothing is removed from a text in which [old] does not occur. *)
Lemma replace_scan_none (old s : str) :
  (forall a b, s <> a ++ old ++ b) -> replace_scan old [] s 0 = s.
Proof.
  induction s as [| x s IH]; intros Hno; cbn [replace_scan]; [reflexivity |].
  destruct (starts_with old (x :: s)) eqn:E.
  - apply starts_with_iff in E. destruct E as [b E].
    exfalso. apply (Hno [] b). exact E.
  - f_equal. apply IH. intros a b ->. apply (Hno (x :: a) b). reflexivity.
Qed.

(** Removing [old] from a text in which it occurs once, after [pre],
    leaves what is before and what is after. *)
Lemma replace_once (old pre post : str) :
  old <> [] ->
  (forall a b, pre ++ old ++ post = a ++ old ++ b -> a = pre) ->
  replace old [] (pre ++ old ++ post) = pre ++ post.
Proof.
  intros Hne Huniq.
  assert (Hscan : replace_scan old [] (pre ++ old ++ post) 0 = pre ++ post).
  { induction pre as [| x pre IH].
    - cbn [app]. destruct old as [| c old']; [congruence |].
      cbn [app replace_scan].
      rewrite (proj2 (starts_with_iff (c :: old') (c :: old' ++ post)))
        by (now exists post).
      cbn [app List.length Nat.sub]. rewrite Nat.sub_0_r.
      rewrite replace_scan_skip. apply replace_scan_none.
      intros a b ->.
      specialize (Huniq ((c :: old') ++ a) b).
      rewrite <- !app_assoc in Huniq. specialize (Huniq eq_refl).
      discriminate.
    - cbn [app replace_scan].
      destruct (starts_with old (x :: pre ++ old ++ post)) eqn:E.
      + apply starts_with_iff in E. destruct E as [b E].
        specialize (Huniq [] b E). discriminate.
      + f_equal. apply IH. intros a b H.
        specialize (Huniq (x :: a) b). cbn [app] in Huniq.
        rewrite H in Huniq. specialize (Huniq eq_refl). now injection Huniq. }
  unfold replace. destruct old; [congruence | exact Hscan].
Qed.

(** The places at which [sub] occurs in [s], counted from [i]. *)
Fixpoint positions_from (sub s : str) (i : nat) : list nat :=
  (if starts_with sub s then [i] else [])
  ++ match s with
     | [] => []
     | _ :: s' => positions_from sub s' (S i)
     end.

Lemma positions_from_complete (sub a b : str) (i : nat) :
  List.In (i + List.length a) (positions_from sub (a ++ sub ++ b) i).
Proof.
  revert i. induction a as [| x a IH]; intros i.
  - cbn [app List.length]. rewrite Nat.add_0_r.
    destruct (sub ++ b) as [| y t] eqn:E; cbn [positions_from];
      rewrite <- E;
      rewrite (proj2 (starts_with_iff sub (sub ++ b))) by (now exists b);
      now left.
  - cbn [app List.length positions_from]. apply in_or_app. right.
    rewrite <- Nat.add_succ_comm. apply IH.
Qed.

Lemma app_same_length (a pre x y : str) :
  a ++ x = pre ++ y -> List.length a = List.length pre -> a = pre.
Proof.
  revert pre. induction a as [| c a IH]; intros [| d pre] H Hlen;
    cbn [List.length] in Hlen; try discriminate; [reflexivity |].
  injection H as -> H. f_equal. apply (IH _ H). lia.
Qed.

(** A text with one place for [sub] holds [sub] once. *)
Lemma occurs_once (sub s pre post : str) :
  s = pre ++ sub ++ post ->
  positions_from sub s 0 = [List.length pre] ->
  forall a b, s = a ++ sub ++ b -> a = pre.
Proof.
  intros Hs Hpos a b Ha.
  pose proof (positions_from_complete sub a b 0) as Hin.
  rewrite <- Ha, Hpos in Hin. cbn [Nat.add List.In] in Hin.
  destruct Hin as [Hin | []].
  apply (@app_same_length a pre (sub ++ b) (sub ++ post));
    [congruence | now symmetry].
Qed.

(** A decoded record whose [names] repeat the [surname]. *)
Definition raw_same_names : Dict.dict :=
  [ (u "surname", u "DUPONT"); (u "names", u "DUPONT");
    (u "date_of_birth", u "850101"); (u "expiration_date", u "300101") ].

(** A decoded record whose [names] hold the surname, then a first
    name. *)
Definition raw_surname_in_names : Dict.dict :=
  [ (u "surname", u "DUPONT"); (u "names", u "DUPONT<MARIE<<");
    (u "date_of_birth", u "850101"); (u "expiration_date", u "300101") ].

(** C5: the first name of the identity-card mapper, read from the
    mapped record. When the cleaned [names] are not empty and hold the
    non-empty cleaned [surname], the surname is removed and the rest
    trimmed, with the unmodified [names] in place of an empty rest;
    when the surname is empty or not in [names], the first name is
    [names]; when [names] is empty, it is "Non précisé". Removal and
    trimming are stated twice: with the code's own [replace], [strip]
    and [in], and without them, for names that hold the surname once.
    The passport mapper removes the surname and trims whatever the
    case, with nothing in place of an empty rest, so that names equal
    to the surname give an empty first name. *)
Theorem C5_first_name_derivation (rt : runtime) (raw : Dict.dict) :
  let surname := Frenchcarte.clean_name rt (Frenchcarte.raw_get raw "surname") in
  let names := Frenchcarte.clean_name rt (Frenchcarte.raw_get raw "names") in
  let removed := strip (replace surname [] names) in
  (exists info prenom,
      Frenchcarte.extract_mrz_info rt (Some raw) = Ok info
      /\ Dict.get Frenchcarte.k_prenom info = Some prenom
      /\ (names <> [] -> surname <> [] -> contains surname names = true ->
          (removed <> [] -> prenom = removed)
          /\ (removed = [] -> prenom = names))
      /\ (names <> [] -> surname = [] \/ contains surname names = false ->
          prenom = names)
      /\ (names = [] -> prenom = u "Non précisé")
      /\ (forall pre post core,
             surname <> [] ->
             names = pre ++ surname ++ post ->
             (forall a b, names = a ++ surname ++ b -> a = pre) ->
             trims_to (pre ++ post) core ->
             (core <> [] -> prenom = core)
             /\ (core = [] -> prenom = names))
      /\ (names <> [] ->
          surname = [] \/ ~ (exists a b, names = a ++ surname ++ b) ->
          prenom = names))
  /\ (forall info,
         IndianPassport.extract_mrz_info rt (Some raw) = Ok info ->
         Dict.get (u "First Name") info = Some removed
         /\ (names <> [] -> surname = names ->
             Dict.get (u "First Name") info = Some [])
         /\ (forall pre post core,
                surname <> [] ->
                names = pre ++ surname ++ post ->
                (forall a b, names = a ++ surname ++ b -> a = pre) ->
                trims_to (pre ++ post) core ->
                Dict.get (u "First Name") info = Some core))
  /\ (exists info,
         IndianPassport.extract_mrz_info Sample.rt (Some raw_same_names) = Ok info
         /\ Dict.get (u "Last Name") info = Some (u "Dupont")
         /\ Dict.get (u "First Name") info = Some []).
Proof.
  intros surname names removed.
  assert (Hpin : forall pre post core,
             surname <> [] ->
             names = pre ++ surname ++ post ->
             (forall a b, names = a ++ surname ++ b -> a = pre) ->
             trims_to (pre ++ post) core ->
             removed = core).
  { intros pre post core Hs Hn Huniq Htrim. unfold removed.
    rewrite Hn in Huniq |- *.
    rewrite (@replace_once surname pre post Hs Huniq).
    now apply strip_trims. }
  split; [| split].
  - destruct (fr_extract_mrz_info_some rt raw) as (dob & exp & _ & _ & Hinfo).
    eexists. exists (Frenchcarte.prenom_of surname names).
    split; [exact Hinfo |]. split; [apply fr_mrz_get_prenom |].
    unfold Frenchcarte.prenom_of. fold removed.
    assert (Hcase : forall (Hn : names <> []) (Hs : surname <> [])
                           (Hc : contains surname names = true),
               ((removed <> [] ->
                 (if nonempty names
                  then if nonempty surname && contains surname names
                       then if PyStr.eqb removed [] then names else removed
                       else names
                  else Frenchcarte.non_precise) = removed)
                /\ (removed = [] ->
                    (if nonempty names
                     then if nonempty surname && contains surname names
                          then if PyStr.eqb removed [] then names else removed
                          else names
                     else Frenchcarte.non_precise) = names))).
    { intros Hn Hs Hc.
      rewrite (nonempty_true Hn), (nonempty_true Hs), Hc. cbn [andb].
      destruct (PyStr.eqb removed []) eqn:E.
      - apply PyStr.eqb_eq in E. split; [congruence | reflexivity].
      - split; [reflexivity |]. intros H. rewrite H in E. discriminate. }
    split; [exact Hcase |].
    split; [| split; [| split]].
    + intros Hn [Hs | Hc]; rewrite (nonempty_true Hn).
      * now rewrite Hs.
      * rewrite Hc. now rewrite andb_false_r.
    + intros Hn. now rewrite Hn.
    + intros pre post core Hs Hn Huniq Htrim.
      assert (Hne : names <> [])
        by (rewrite Hn; destruct pre; [destruct surname; [congruence | discriminate]
                                      | discriminate]).
      assert (Hc : contains surname names = true)
        by (apply contains_iff; now exists pre, post).
      rewrite <- (Hpin pre post core Hs Hn Huniq Htrim).
      exact (Hcase Hne Hs Hc).
    + intros Hn [Hs | Hno]; rewrite (nonempty_true Hn).
      * now rewrite Hs.
      * destruct (contains surname names) eqn:Hc;
          [| now rewrite andb_false_r].
        apply contains_iff in Hc. contradiction.
  - intros info Hinfo.
    pose proof (pp_extract_mrz_info_first_name _ _ Hinfo) as H.
    split; [exact H |]. split.
    + intros Hn Hs. rewrite H. f_equal.
      change (IndianPassport.first_name_of surname names = []).
      unfold IndianPassport.first_name_of.
      rewrite Hs, (replace_self Hn). reflexivity.
    + intros pre post core Hs Hn Huniq Htrim. rewrite H. f_equal.
      exact (Hpin pre post core Hs Hn Huniq Htrim).
  - eexists. split; [vm_compute; reflexivity |].
    split; vm_compute; reflexivity.
Qed.

Lemma C5_first_name_derivation_witness :
  (exists info,
      Frenchcarte.extract_mrz_info Sample.rt (Some raw_same_names) = Ok info
      /\ Dict.get Frenchcarte.k_prenom info = Some (u "Dupont"))
  /\ (exists info,
         Frenchcarte.extract_mrz_info Sample.rt (Some raw_surname_in_names) = Ok info
         /\ Dict.get Frenchcarte.k_prenom info = Some (u "Marie")).
Proof.
  split.
  - destruct (C5_first_name_derivation Sample.rt raw_same_names)
      as ((info & prenom & Hinfo & Hget & H1 & _) & _ & _).
    exists info. split; [exact Hinfo |].
    rewrite Hget. f_equal.
    apply H1; try reflexivity; discriminate.
  - destruct (C5_first_name_derivation Sample.rt raw_surname_in_names)
      as ((info & prenom & Hinfo & Hget & _ & _ & _ & H4 & _) & _ & _).
    exists info. split; [exact Hinfo |].
    rewrite Hget. f_equal.
    apply (H4 [] (u " Marie") (u "Marie")).
    + discriminate.
    + vm_compute. reflexivity.
    + apply (@occurs_once _ _ [] (u " Marie")); vm_compute; reflexivity.
    + exists (u " "), []. vm_compute. repeat split; repeat constructor.
    + discriminate.
Defined.

(** ** Dictionaries *)

Section DictFacts.

Import Dict.

Lemma eqb_refl (k : str) : PyStr.eqb k k = true.
Proof. now apply PyStr.eqb_eq. Qed.

Lemma eqb_neq (k k' : str) : k <> k' -> PyStr.eqb k k' = false.
Proof.
  intros H. destruct (PyStr.eqb k k') eqn:E; [| reflexivity].
  apply PyStr.eqb_eq in E. contradiction.
Qed.

(** A dictionary holds each key once. *)
Definition wf (d : dict) : Prop := NoDup (keys d).

Lemma get_none_iff (k : str) (d : dict) :
  get k d = None <-> ~ List.In k (keys d).
Proof.
  induction d as [| [k' v'] d IH]; cbn [get keys map fst List.In]; [tauto |].
  destruct (PyStr.eqb k' k) eqn:E.
  - apply PyStr.eqb_eq in E. split; [discriminate | tauto].
  - assert (k' <> k) by (intros ->; now rewrite eqb_refl in E).
    fold (keys d). tauto.
Qed.

Lemma get_set_same (k v : str) (d : dict) : get k (set k v d) = Some v.
Proof.
  induction d as [| [k' v'] d IH]; cbn [set get].
  - now rewrite eqb_refl.
  - destruct (PyStr.eqb k' k) eqn:E; cbn [get]; now rewrite E.
Qed.

Lemma get_set_other (k k0 v : str) (d : dict) :
  k <> k0 -> get k0 (set k v d) = get k0 d.
Proof.
  intros Hne. induction d as [| [k' v'] d IH]; cbn [set get].
  - now rewrite (eqb_neq Hne).
  - destruct (PyStr.eqb k' k) eqn:E; cbn [get]; [| now rewrite IH].
    apply PyStr.eqb_eq in E. subst k'. now rewrite (eqb_neq Hne).
Qed.

Lemma get_set (k k0 v : str) (d : dict) :
  get k0 (set k v d) = if PyStr.eqb k k0 then Some v else get k0 d.
Proof.
  destruct (PyStr.eqb k k0) eqn:E.
  - apply PyStr.eqb_eq in E. subst. apply get_set_same.
  - apply get_set_other. intros ->. now rewrite eqb_refl in E.
Qed.

(** Writing the value a key already has changes nothing. *)
Lemma set_same_value (k v : str) (d : dict) :
  get k d = Some v -> set k v d = d.
Proof.
  induction d as [| [k' v'] d IH]; cbn [set get]; [discriminate |].
  destruct (PyStr.eqb k' k) eqn:E.
  - now intros [= ->].
  - intros H. now rewrite IH.
Qed.

Lemma keys_set (k v : str) (d : dict) :
  keys (set k v d)
  = match get k d with
    | Some _ => keys d
    | None => keys d ++ [k]
    end.
Proof.
  induction d as [| [k' v'] d IH]; cbn [set get keys map fst app];
    [reflexivity |].
  destruct (PyStr.eqb k' k) eqn:E; cbn [map fst]; [reflexivity |].
  fold (keys (set k v d)). fold (keys d). rewrite IH.
  now destruct (get k d).
Qed.

Lemma wf_set (k v : str) (d : dict) : wf d -> wf (set k v d).
Proof.
  unfold wf. intros H. rewrite keys_set.
  destruct (get k d) eqn:E; [exact H |].
  apply get_none_iff in E.
  apply NoDup_rev in H. rewrite <- (rev_involutive (keys d ++ [k])).
  apply NoDup_rev. rewrite rev_app_distr. cbn [rev app].
  constructor; [| exact H]. now rewrite <- in_rev.
Qed.

Lemma wf_update (d o : dict) : wf d -> wf (update d o).
Proof.
  unfold update. revert d.
  induction o as [| [k v] o IH]; intros d H; cbn [fold_left fst snd];
    [exact H |].
  apply IH. now apply wf_set.
Qed.

(** [update] is last write wins, and leaves the other keys alone. *)
Lemma get_update (k : str) (d o : dict) :
  wf o ->
  get k (update d o)
  = match get k o with
    | Some v => Some v
    | None => get k d
    end.
Proof.
  unfold update, wf. revert d.
  induction o as [| [k' v'] o IH]; intros d H;
    cbn [fold_left fst snd get]; [reflexivity |].
  cbn [keys map fst] in H. fold (keys o) in H.
  apply NoDup_cons_iff in H. destruct H as [Hnotin Hnd].
  rewrite (IH _ Hnd).
  destruct (PyStr.eqb k' k) eqn:E.
  - apply PyStr.eqb_eq in E. subst k'.
    apply get_none_iff in Hnotin. rewrite Hnotin. apply get_set_same.
  - destruct (get k o); [reflexivity |].
    apply get_set_other. intros ->. now rewrite eqb_refl in E.
Qed.

(** Updating with a dictionary whose keys are all new appends it. *)
Lemma update_fresh (d o : dict) :
  wf o -> (forall k, List.In k (keys o) -> get k d = None) ->
  update d o = d ++ o.
Proof.
  unfold update, wf. revert d.
  induction o as [| [k v] o IH]; intros d H Hfresh; cbn [fold_left fst snd].
  - now rewrite app_nil_r.
  - cbn [keys map fst] in H, Hfresh. fold (keys o) in H, Hfresh.
    apply NoDup_cons_iff in H. destruct H as [Hnotin Hnd].
    assert (Hs : set k v d = d ++ [(k, v)]).
    { assert (Hk : get k d = None) by (apply Hfresh; now left).
      clear - Hk. induction d as [| [k' v'] d IHd]; cbn [set get app] in *;
        [reflexivity |].
      destruct (PyStr.eqb k' k); [discriminate |]. now rewrite IHd. }
    rewrite Hs, IH; [now rewrite <- app_assoc | exact Hnd |].
    intros k0 Hin. apply get_none_iff. unfold keys. rewrite map_app.
    cbn [map fst]. intros Hin'. apply in_app_or in Hin'.
    destruct Hin' as [Hin' | [-> | []]]; [| contradiction].
    assert (Hn : get k0 d = None) by (apply Hfresh; now right).
    apply get_none_iff in Hn. contradiction.
Qed.

Lemma update_empty (o : dict) : wf o -> update [] o = o.
Proof. intros H. now rewrite update_fresh. Qed.

(** The keys after an update: those present before, in their order,
    then the new ones in the order of the update. *)
Lemma keys_update (d o : dict) :
  wf o ->
  keys (update d o)
  = keys d ++ filter (fun k => match get k d with
                               | Some _ => false
                               | None => true
                               end) (keys o).
Proof.
  unfold update, wf. revert d.
  induction o as [| [k v] o IH]; intros d H;
    cbn [fold_left fst snd keys map filter].
  - now rewrite app_nil_r.
  - fold (keys o) in *. cbn [keys map fst] in H. fold (keys o) in H.
    apply NoDup_cons_iff in H. destruct H as [Hnotin Hnd].
    rewrite (IH _ Hnd), keys_set.
    assert (Hfil :
      filter (fun k0 => match get k0 (set k v d) with
                        | Some _ => false | None => true end) (keys o)
      = filter (fun k0 => match get k0 d with
                          | Some _ => false | None => true end) (keys o)).
    { apply filter_ext_in. intros k0 Hin.
      rewrite get_set_other; [reflexivity |]. now intros ->. }
    rewrite Hfil. destruct (get k d); [reflexivity |].
    now rewrite <- app_assoc.
Qed.

End DictFacts.

(** ** The matcher on literals and greedy runs *)


Lemma run_seq (same : N -> N -> bool) (a b : regex) (s : str) (m : caps)
      (k : str -> caps -> option caps) :
  run same (Seq a b) s m k = run same a s m (fun s' m' => run same b s' m' k).
Proof. reflexivity. Qed.




Lemma firstn_length_app (l s : str) :
  firstn (List.length (l ++ s) - List.length s) (l ++ s) = l.
Proof.
  rewrite length_app, Nat.add_sub.
  induction l as [| c l IH]; cbn [List.length firstn app];
    [now destruct s | now rewrite IH].
Qed.







(** ** The height pattern *)















(** ** The OCR text field extractor *)

(** What [extract_info_from_ocr_text] returns, label by label. *)
Lemma fr_extract_info_fields (rt : runtime) (text : str) :
  exists info,
    Frenchcarte.extract_info_from_ocr_text rt text = Ok info
    /\ wf info
    /\ Dict.get Frenchcarte.k_taille info = Some (Frenchcarte.extract_taille text)
    /\ Dict.get Frenchcarte.k_id info
       = option_map (Frenchcarte.group_of 1)
           (Frenchcarte.search_i rt Frenchcarte.re_id text)
    /\ Dict.get Frenchcarte.k_nat info
       = option_map (fun m => title rt (Frenchcarte.group_of 1 m))
           (Frenchcarte.search_i rt Frenchcarte.re_nat text)
    /\ Dict.get Frenchcarte.k_nom info
       = option_map (fun m => title rt (Frenchcarte.group_of 1 m))
           (Frenchcarte.search_i rt Frenchcarte.re_nom text)
    /\ Dict.get Frenchcarte.k_prenom info
       = option_map (fun m => title rt (Frenchcarte.group_of 1 m))
           (Frenchcarte.search_i rt Frenchcarte.re_prenom text)
    /\ Dict.get Frenchcarte.k_sexe info
       = option_map (fun m => upper rt (Frenchcarte.group_of 1 m))
           (Frenchcarte.search_i rt Frenchcarte.re_sexe text)
    /\ match Frenchcarte.search_i rt Frenchcarte.re_dob text with
       | Some m =>
           exists d, Frenchcarte.convert_date (Frenchcarte.group_of 1 m) = Ok d
                     /\ Dict.get Frenchcarte.k_dob info = Some d
       | None => Dict.get Frenchcarte.k_dob info = None
       end.
Proof.
  unfold Frenchcarte.extract_info_from_ocr_text, Frenchcarte.put_if.
  generalize (Frenchcarte.extract_taille text) as taille. intros taille.
  destruct (Frenchcarte.search_i rt Frenchcarte.re_id text) as [m1 |];
  destruct (Frenchcarte.search_i rt Frenchcarte.re_nat text) as [m2 |];
  destruct (Frenchcarte.search_i rt Frenchcarte.re_nom text) as [m3 |];
  destruct (Frenchcarte.search_i rt Frenchcarte.re_prenom text) as [m4 |];
  destruct (Frenchcarte.search_i rt Frenchcarte.re_sexe text) as [m5 |];
  (destruct (Frenchcarte.search_i rt Frenchcarte.re_dob text) as [m6 |];
   [ destruct (fr_convert_total (Frenchcarte.group_of 1 m6)) as [d Hd];
     rewrite Hd
   | ]);
  cbn [bind option_map];
  (eexists; split; [reflexivity |]);
  (split; [repeat apply wf_set; constructor |]);
  repeat (split; [vm_compute; reflexivity |]);
  try (exists d; split; [reflexivity |]);
  vm_compute; reflexivity.
Qed.

(** ** The field merger *)

Lemma fr_extract_mrz_info_wf (rt : runtime) (mrz : option Dict.dict) :
  exists mrz_info,
    Frenchcarte.extract_mrz_info rt mrz = Ok mrz_info
    /\ wf mrz_info
    /\ (mrz = None -> mrz_info = []).
Proof.
  destruct mrz as [raw |].
  - unfold Frenchcarte.extract_mrz_info.
    destruct (fr_convert_total (Frenchcarte.unfilled raw "date_of_birth")) as [dob ->].
    destruct (fr_convert_total (Frenchcarte.unfilled raw "expiration_date")) as [exp ->].
    cbn [bind]. eexists. split; [reflexivity |].
    split; [| discriminate].
    unfold Dict.of_items. apply wf_update. constructor.
  - exists []. repeat split. constructor.
Qed.

(** With the height already in the OCR fields, the merge is the update
    of the MRZ fields by the OCR fields. *)
Lemma final_info_update (mrz_info ocr_info : Dict.dict) (taille : str) :
  wf mrz_info -> wf ocr_info ->
  Dict.get Frenchcarte.k_taille ocr_info = Some taille ->
  Frenchcarte.final_info mrz_info ocr_info taille
  = Dict.update mrz_info ocr_info.
Proof.
  intros Hm Ho Ht. unfold Frenchcarte.final_info.
  assert (Hseed : (if Dict.truthy mrz_info then Dict.update [] mrz_info else [])
                  = mrz_info).
  { destruct mrz_info as [| kv d]; [reflexivity |].
    cbn [Dict.truthy]. now apply update_empty. }
  rewrite Hseed. apply set_same_value.
  now rewrite (get_update _ _ Ho), Ht.
Qed.

(** C4: the final FieldSet starts from the MRZ fields, in their order,
    then takes every OCR field, so that a label of both carries the OCR
    value and a label of the MRZ alone keeps its MRZ value; when the
    decoder returns no record, the final FieldSet is the OCR FieldSet. *)
Theorem C4_merge_ocr_over_mrz (rt : runtime) (mrz : option Dict.dict) (text : str) :
  exists mrz_info ocr_info final,
    Frenchcarte.extract_mrz_info rt mrz = Ok mrz_info
    /\ Frenchcarte.extract_info_from_ocr_text rt text = Ok ocr_info
    /\ Frenchcarte.app rt mrz text = Ok final
    /\ (forall k v, Dict.get k ocr_info = Some v -> Dict.get k final = Some v)
    /\ (forall k, Dict.get k ocr_info = None ->
                  Dict.get k final = Dict.get k mrz_info)
    /\ Dict.keys final
       = Dict.keys mrz_info
         ++ filter (fun k => match Dict.get k mrz_info with
                             | Some _ => false
                             | None => true
                             end) (Dict.keys ocr_info)
    /\ (mrz = None -> mrz_info = [] /\ final = ocr_info).
Proof.
  destruct (fr_extract_mrz_info_wf rt mrz) as (mrz_info & Hmrz & Hwm & Hnone).
  destruct (fr_extract_info_fields rt text) as (ocr_info & Hocr & Hwo & Ht & _).
  exists mrz_info, ocr_info, (Dict.update mrz_info ocr_info).
  split; [exact Hmrz |]. split; [exact Hocr |].
  split.
  { unfold Frenchcarte.app. rewrite Hmrz, Hocr. cbn [bind].
    now rewrite (final_info_update Hwm Hwo Ht). }
  split; [| split; [| split]].
  - intros k v Hk. now rewrite (get_update _ _ Hwo), Hk.
  - intros k Hk. now rewrite (get_update _ _ Hwo), Hk.
  - now apply keys_update.
  - intros H. rewrite (Hnone H). split; [reflexivity |].
    now apply update_empty.
Qed.

(** A decoded record and an OCR text that disagree on the surname. *)
Definition raw_dupont : Dict.dict :=
  [ (u "surname", u "DUPONT"); (u "names", u "MARIE");
    (u "country", u "FRA"); (u "sex", u "F") ].

Lemma C4_merge_ocr_over_mrz_witness :
  exists final,
    Frenchcarte.app Sample.rt (Some raw_dupont) (u "Nom: DURAND") = Ok final
    /\ Dict.get Frenchcarte.k_nom final = Some (u "Durand")
    /\ Dict.get Frenchcarte.k_sexe final = Some (u "F").
Proof.
  destruct (C4_merge_ocr_over_mrz Sample.rt (Some raw_dupont) (u "Nom: DURAND"))
    as (mrz_info & ocr_info & final & Hmrz & Hocr & Hfinal & Hboth & Hmrz_only & _).
  exists final. split; [exact Hfinal |].
  assert (Ho : ocr_info
               = [ (Frenchcarte.k_nom, u "Durand");
                   (Frenchcarte.k_taille, Frenchcarte.non_precise) ]).
  { assert (E : Frenchcarte.extract_info_from_ocr_text Sample.rt (u "Nom: DURAND")
                = Ok [ (Frenchcarte.k_nom, u "Durand");
                       (Frenchcarte.k_taille, Frenchcarte.non_precise) ])
      by (vm_compute; reflexivity).
    rewrite E in Hocr. now injection Hocr. }
  assert (Hm : Dict.get Frenchcarte.k_sexe mrz_info = Some (u "F")).
  { assert (E : exists d, Frenchcarte.extract_mrz_info Sample.rt (Some raw_dupont) = Ok d
                          /\ Dict.get Frenchcarte.k_sexe d = Some (u "F"))
      by (eexists; split; vm_compute; reflexivity).
    destruct E as (d & Ed & Hd). rewrite Ed in Hmrz.
    injection Hmrz as <-. exact Hd. }
  split.
  - apply Hboth. rewrite Ho. vm_compute. reflexivity.
  - rewrite Hmrz_only; [exact Hm |]. rewrite Ho. vm_compute. reflexivity.
Defined.



(* ================================================================= *)
(** ** The extractor on a store of objects

    [extract_info_from_ocr_text] builds its result in a dict it creates
    itself ([info = {}]) and writes into in place. Here the dicts live
    in a store and are named by their position in it, so that two runs
    can be followed one after the other. *)

Module Store.

Definition heap := list Dict.dict.
Definition ref := nat.

(** A new object, placed after the existing ones. *)
Definition alloc (d : Dict.dict) (h : heap) : ref * heap :=
  (List.length h, h ++ [d]).

Definition deref (r : ref) (h : heap) : option Dict.dict := nth_error h r.

(** [obj[k] = v] on the object named [r]. *)
Fixpoint store_set (r : ref) (k v : str) (h : heap) : heap :=
  match h, r with
  | [], _ => []
  | d :: h', O => Dict.set k v d :: h'
  | d :: h', S r' => d :: store_set r' k v h'
  end.

End Store.

Section StoreProgram.

Variable rt : runtime.

(** [if match: info[key] = value(match.group(1))], in the store. *)
Definition st_put_if (found : option caps) (key : str) (value : str -> str)
           (info : Store.ref) (h : Store.heap) : Store.heap :=
  match found with
  | Some m => Store.store_set info key (value (Frenchcarte.group_of 1 m)) h
  | None => h
  end.

(** [extract_info_from_ocr_text(ocr_text)] run in the store [h]: the
    name of the dict it returns, and the store it leaves. *)
Definition extract_info_st (ocr_text : str) (h : Store.heap)
  : result (Store.ref * Store.heap) :=
  let '(info, h) := Store.alloc [] h in
  let h := st_put_if (Frenchcarte.search_i rt Frenchcarte.re_id ocr_text)
             Frenchcarte.k_id (fun g => g) info h in
  let h := st_put_if (Frenchcarte.search_i rt Frenchcarte.re_nat ocr_text)
             Frenchcarte.k_nat (title rt) info h in
  let h := st_put_if (Frenchcarte.search_i rt Frenchcarte.re_nom ocr_text)
             Frenchcarte.k_nom (title rt) info h in
  let h := st_put_if (Frenchcarte.search_i rt Frenchcarte.re_prenom ocr_text)
             Frenchcarte.k_prenom (title rt) info h in
  let h := st_put_if (Frenchcarte.search_i rt Frenchcarte.re_sexe ocr_text)
             Frenchcarte.k_sexe (upper rt) info h in
  h <- match Frenchcarte.search_i rt Frenchcarte.re_dob ocr_text with
       | Some m =>
           d <- Frenchcarte.convert_date (Frenchcarte.group_of 1 m) ;;
           Ok (Store.store_set info Frenchcarte.k_dob d h)
       | None => Ok h
       end ;;
  Ok (info, Store.store_set info Frenchcarte.k_taille
              (Frenchcarte.extract_taille ocr_text) h).

End StoreProgram.

Lemma store_set_last (h : Store.heap) (d : Dict.dict) (k v : str) :
  Store.store_set (List.length h) k v (h ++ [d]) = h ++ [Dict.set k v d].
Proof.
  induction h as [| d0 h IH]; cbn [List.length app Store.store_set];
    [reflexivity | now rewrite IH].
Qed.

Lemma deref_last (h : Store.heap) (d : Dict.dict) :
  Store.deref (List.length h) (h ++ [d]) = Some d.
Proof.
  unfold Store.deref. rewrite nth_error_app2 by lia.
  now rewrite Nat.sub_diag.
Qed.

Lemma deref_old (h : Store.heap) (d : Dict.dict) (r : Store.ref) :
  r < List.length h -> Store.deref r (h ++ [d]) = Store.deref r h.
Proof. intros H. unfold Store.deref. now apply nth_error_app1. Qed.

(** The run in the store adds one object, the dict the function
    returns, and touches no other. *)
Lemma extract_info_st_refines (rt : runtime) (text : str) (h : Store.heap) :
  exists info,
    Frenchcarte.extract_info_from_ocr_text rt text = Ok info
    /\ extract_info_st rt text h = Ok (List.length h, h ++ [info]).
Proof.
  unfold extract_info_st, Frenchcarte.extract_info_from_ocr_text,
    st_put_if, Frenchcarte.put_if, Store.alloc.
  destruct (Frenchcarte.search_i rt Frenchcarte.re_id text) as [m1 |];
  destruct (Frenchcarte.search_i rt Frenchcarte.re_nat text) as [m2 |];
  destruct (Frenchcarte.search_i rt Frenchcarte.re_nom text) as [m3 |];
  destruct (Frenchcarte.search_i rt Frenchcarte.re_prenom text) as [m4 |];
  destruct (Frenchcarte.search_i rt Frenchcarte.re_sexe text) as [m5 |];
  (destruct (Frenchcarte.search_i rt Frenchcarte.re_dob text) as [m6 |];
   [ destruct (fr_convert_total (Frenchcarte.group_of 1 m6)) as [d Hd];
     rewrite Hd
   | ]);
  cbn [bind]; rewrite !store_set_last;
  eexists; split; reflexivity.
Qed.

(** C8: two runs of the extractor on the same text, the second in the
    store the first has left, both succeed and return two distinct
    dicts with the same labels, the same values and the same order; the
    second run leaves the dict of the first as it was. *)
Theorem C8_extraction_deterministic (rt : runtime) (text : str) (h : Store.heap) :
  exists r1 h1 r2 h2 info,
    extract_info_st rt text h = Ok (r1, h1)
    /\ extract_info_st rt text h1 = Ok (r2, h2)
    /\ Frenchcarte.extract_info_from_ocr_text rt text = Ok info
    /\ Store.deref r1 h1 = Some info
    /\ Store.deref r2 h2 = Some info
    /\ Store.deref r1 h2 = Some info
    /\ r1 <> r2.
Proof.
  destruct (extract_info_st_refines rt text h) as (info & Hpure & Hrun1).
  destruct (extract_info_st_refines rt text (h ++ [info])) as (info' & Hpure' & Hrun2).
  assert (info' = info) by congruence. subst info'.
  exists (List.length h), (h ++ [info]),
         (List.length (h ++ [info])), ((h ++ [info]) ++ [info]), info.
  split; [exact Hrun1 |]. split; [exact Hrun2 |]. split; [exact Hpure |].
  split; [apply deref_last |]. split; [apply deref_last |].
  split.
  - rewrite deref_old by (rewrite length_app; cbn; lia). apply deref_last.
  - rewrite length_app. cbn. lia.
Qed.

(* ================================================================= *)
(** * Further properties of the code *)

(** ** The results of the identity-card date normaliser *)

(** A date in the form the normaliser writes: two digits, '/', two
    digits, '/', four digits. *)
Definition slash_date (r : str) : Prop :=
  exists d1 d2 m1 m2 y1 y2 y3 y4,
    r = [d1; d2; 0x2f; m1; m2; 0x2f; y1; y2; y3; y4]%N
    /\ is_digit d1 = true /\ is_digit d2 = true
    /\ is_digit m1 = true /\ is_digit m2 = true
    /\ is_digit y1 = true /\ is_digit y2 = true
    /\ is_digit y3 = true /\ is_digit y4 = true.

(** The year written for the two-digit year [n] has four digits. *)
Definition year_four_digits (n : N) : bool :=
  match str_of_Z (let yy := Z.of_N n in
                  if (30 <? yy)%Z then 1900 + yy else 2000 + yy)%Z with
  | [a; b; c; d] => is_digit a && is_digit b && is_digit c && is_digit d
  | _ => false
  end.

Lemma year_four_digits_all :
  forallb year_four_digits (map N.of_nat (seq 0 100)) = true.
Proof. vm_compute. reflexivity. Qed.

Lemma year_shape (v1 v2 : N) :
  (v1 < 10)%N -> (v2 < 10)%N ->
  exists y1 y2 y3 y4,
    str_of_Z (let yy := Z.of_N (10 * v1 + v2) in
              if (30 <? yy)%Z then 1900 + yy else 2000 + yy)%Z
    = [y1; y2; y3; y4]
    /\ is_digit y1 = true /\ is_digit y2 = true
    /\ is_digit y3 = true /\ is_digit y4 = true.
Proof.
  intros H1 H2. pose proof year_four_digits_all as H.
  rewrite forallb_forall in H. specialize (H (10 * v1 + v2)%N).
  assert (Hin : List.In (10 * v1 + v2)%N (map N.of_nat (seq 0 100))).
  { rewrite <- (N2Nat.id (10 * v1 + v2)). apply in_map. apply in_seq. lia. }
  apply H in Hin. unfold year_four_digits in Hin.
  destruct (str_of_Z _) as [| a [| b [| c [| d [| e l]]]]]; try discriminate.
  rewrite !andb_true_iff in Hin. destruct Hin as (((Ha & Hb) & Hc) & Hd).
  exists a, b, c, d. repeat split; assumption.
Qed.

Lemma fullmatch_dmy_inv (t : str) (m : caps) :
  fullmatch N.eqb Frenchcarte.re_dmy t = Some m ->
  exists d1 d2 s1 m1 m2 s2 y1 y2 y3 y4,
    t = [d1; d2; s1; m1; m2; s2; y1; y2; y3; y4]
    /\ m = [(3, [y1; y2; y3; y4]); (2, [m1; m2]); (1, [d1; d2])]
    /\ is_digit d1 = true /\ is_digit d2 = true /\ is_sep s1 = true
    /\ is_digit m1 = true /\ is_digit m2 = true /\ is_sep s2 = true
    /\ is_digit y1 = true /\ is_digit y2 = true
    /\ is_digit y3 = true /\ is_digit y4 = true.
Proof.
  unfold Frenchcarte.re_dmy.
  destruct t as [| d1 [| d2 [| s1 [| m1 [| m2 [| s2 [| y1 [| y2 [| y3
                [| y4 [| z t]]]]]]]]]]];
    cbn [fullmatch run times];
    repeat match goal with
           | |- context [in_set N.eqb [Lit 46%N; Lit 47%N; Lit 45%N] ?x] =>
               change (in_set N.eqb [Lit 46%N; Lit 47%N; Lit 45%N] x)
                 with (is_sep x)
           end;
    cbn [in_set existsb item_matches];
    repeat match goal with
           | |- context [is_digit ?x || false] =>
               destruct (is_digit x) eqn:?; cbn [orb]
           | |- context [if is_sep ?x then _ else _] =>
               destruct (is_sep x) eqn:?
           end; try discriminate.
  intros H. injection H as <-.
  exists d1, d2, s1, m1, m2, s2, y1, y2, y3, y4.
  repeat split; assumption.
Qed.

Lemma fr_convert_slash_date (r : str) :
  slash_date r -> Frenchcarte.convert_date r = Ok r.
Proof.
  intros (d1 & d2 & m1 & m2 & y1 & y2 & y3 & y4 & -> & H).
  decompose [and] H. now apply fr_convert_dmy.
Qed.

(** The three ways out of [convert_date]. *)
Lemma fr_convert_cases (s : str) :
  exists r,
    Frenchcarte.convert_date s = Ok r
    /\ ((fullmatch N.eqb Frenchcarte.re_yymmdd (strip s) <> None
         \/ fullmatch N.eqb Frenchcarte.re_dmy (strip s) <> None)
        /\ slash_date r
        \/ (fullmatch N.eqb Frenchcarte.re_yymmdd (strip s) = None
            /\ fullmatch N.eqb Frenchcarte.re_dmy (strip s) = None)
           /\ r = strip s).
Proof.
  unfold Frenchcarte.convert_date.
  destruct (fullmatch N.eqb Frenchcarte.re_yymmdd (strip s)) as [m |] eqn:E6.
  - apply fullmatch_yymmdd_inv in E6.
    destruct E6 as (a & b & c & d & e & f & -> & Ha & Hb & Hc & Hd & He & Hf).
    apply is_digit_decimal in Ha, Hb.
    destruct Ha as [va Ha], Hb as [vb Hb].
    cbn [firstn]. rewrite (int_two_digits _ _ Ha Hb).
    destruct (year_shape (decimal_lt10 _ Ha) (decimal_lt10 _ Hb))
      as (y1 & y2 & y3 & y4 & Hy & Hy1 & Hy2 & Hy3 & Hy4).
    cbv zeta in Hy |- *. rewrite Hy.
    eexists. split; [reflexivity |]. left.
    split; [left; discriminate |].
    exists e, f, c, d, y1, y2, y3, y4. repeat split; assumption.
  - destruct (fullmatch N.eqb Frenchcarte.re_dmy (strip s)) as [m |] eqn:E10.
    + apply fullmatch_dmy_inv in E10.
      destruct E10 as (d1 & d2 & s1 & m1 & m2 & s2 & y1 & y2 & y3 & y4
                       & _ & -> & H).
      decompose [and] H.
      eexists. split; [reflexivity |]. left.
      split; [right; discriminate |].
      exists d1, d2, m1, m2, y1, y2, y3, y4. repeat split; assumption.
    + eexists. split; [reflexivity |]. right. now repeat split.
Qed.

(** X1: the identity-card normaliser is idempotent: normalising its own
    result gives that result again. *)
Theorem X1_convert_date_idempotent (s : str) :
  (r <- Frenchcarte.convert_date s ;; Frenchcarte.convert_date r)
  = Frenchcarte.convert_date s.
Proof.
  destruct (fr_convert_cases s) as (r & Hr & [[_ Hshape] | [_ ->]]);
    rewrite Hr; cbn [bind].
  - now apply fr_convert_slash_date.
  - now rewrite <- fr_convert_strip.
Qed.

(** X2: the identity-card normaliser raises on no input, and its result
    is a date written DD/MM/YYYY with '/' when the stripped input is
    six digits or a delimited date, and the stripped input otherwise. *)
Theorem X2_convert_date_result_shape (s : str) :
  exists r,
    Frenchcarte.convert_date s = Ok r
    /\ ((fullmatch N.eqb Frenchcarte.re_yymmdd (strip s) <> None
         \/ fullmatch N.eqb Frenchcarte.re_dmy (strip s) <> None)
        /\ (exists d1 d2 m1 m2 y1 y2 y3 y4,
               r = [d1; d2; 0x2f; m1; m2; 0x2f; y1; y2; y3; y4]%N
               /\ forallb is_digit [d1; d2; m1; m2; y1; y2; y3; y4] = true)
        \/ (fullmatch N.eqb Frenchcarte.re_yymmdd (strip s) = None
            /\ fullmatch N.eqb Frenchcarte.re_dmy (strip s) = None)
           /\ r = strip s).
Proof.
  destruct (fr_convert_cases s) as (r & Hr & [[Hm Hshape] | Hno]);
    exists r; (split; [exact Hr |]); [left | right; exact Hno].
  split; [exact Hm |].
  destruct Hshape as (d1 & d2 & m1 & m2 & y1 & y2 & y3 & y4 & -> & H).
  decompose [and] H.
  exists d1, d2, m1, m2, y1, y2, y3, y4. split; [reflexivity |].
  cbn [forallb].
  repeat match goal with E : is_digit _ = true |- _ => rewrite E; clear E end.
  reflexivity.
Qed.

Lemma X2_convert_date_result_shape_witness :
  Frenchcarte.convert_date (u "311299") <> Ok (u "311299")
  /\ Frenchcarte.convert_date (u " n/a ") = Ok (u "n/a").
Proof.
  split.
  - destruct (X2_convert_date_result_shape (u "311299"))
      as (r & Hr & [[_ (d1 & d2 & m1 & m2 & y1 & y2 & y3 & y4 & -> & _)]
                   | [[H _] _]]).
    + rewrite Hr. discriminate.
    + vm_compute in H. discriminate.
  - destruct (X2_convert_date_result_shape (u " n/a "))
      as (r & Hr & [[[H | H] _] | [_ ->]]).
    + exfalso. apply H. vm_compute. reflexivity.
    + exfalso. apply H. vm_compute. reflexivity.
    + rewrite Hr. vm_compute. reflexivity.
Defined.

(** ** The passport date normaliser on six characters *)

Lemma sign_not_digit (a : N) :
  (a =? 0x2b)%N = true \/ (a =? 0x2d)%N = true -> decimal a = None.
Proof. intros [H | H]; apply N.eqb_eq in H; subst a; reflexivity. Qed.

Lemma not_digit_none (a : N) : is_digit a = false -> decimal a = None.
Proof. unfold is_digit. now destruct (decimal a). Qed.

(** [int] of two characters, case by case. *)
Lemma int_two_spec (a b : N) :
  int_ [a; b]
  = match decimal a, decimal b with
    | Some va, Some vb => Some (Z.of_N (10 * va + vb))
    | Some va, None => if int_space b then Some (Z.of_N va) else None
    | None, Some vb =>
        if int_space a then Some (Z.of_N vb)
        else if (a =? 0x2b)%N then Some (Z.of_N vb)
        else if (a =? 0x2d)%N then Some (- Z.of_N vb)%Z
        else None
    | None, None => None
    end.
Proof.
  destruct (decimal a) as [va |] eqn:Da; destruct (decimal b) as [vb |] eqn:Db.
  - now apply int_two_digits.
  - pose proof (digit_not_int_space _ (decimal_is_digit _ Da)) as Sa.
    unfold int_, strip_by. cbn [lstrip_by]. rewrite Sa.
    cbn [rev app lstrip_by].
    destruct (int_space b) eqn:Sb; rewrite ?Sa; cbn [rev app];
      rewrite !(@digit_neqb a) by
        (first [eapply decimal_is_digit; eassumption | reflexivity]);
      cbn [digits_acc]; rewrite Da; cbn [digits_acc]; rewrite ?Db;
      cbn [digits_acc].
    + now rewrite N.mul_0_r, N.add_0_l.
    + now destruct (b =? 95)%N.
  - pose proof (digit_not_int_space _ (decimal_is_digit _ Db)) as Sb.
    unfold int_, strip_by. cbn [lstrip_by].
    destruct (int_space a) eqn:Sa.
    + cbn [lstrip_by]. rewrite Sb. cbn [rev app lstrip_by]. rewrite Sb.
      cbn [rev app].
      rewrite !(@digit_neqb b) by
        (first [eapply decimal_is_digit; eassumption | reflexivity]).
      cbn [digits_acc]. rewrite Db. cbn [digits_acc].
      now rewrite N.mul_0_r, N.add_0_l.
    + cbn [rev app lstrip_by]. rewrite Sb. cbn [rev app].
      destruct (a =? 43)%N eqn:E1;
        [cbn [digits_acc]; rewrite Db; cbn [digits_acc];
         now rewrite N.mul_0_r, N.add_0_l |].
      destruct (a =? 45)%N eqn:E2;
        [cbn [digits_acc]; rewrite Db; cbn [digits_acc];
         now rewrite N.mul_0_r, N.add_0_l |].
      cbn [digits_acc]. rewrite Da. now rewrite andb_false_r.
  - assert (Hnone : forall body, (body = [] \/ body = [a] \/ body = [b]
                                  \/ body = [a; b]) ->
                                 digits_acc body 0%N false = None).
    { intros body [-> | [-> | [-> | ->]]]; cbn [digits_acc];
        rewrite ?Da, ?Db; now rewrite ?andb_false_r. }
    unfold int_, strip_by. cbn [lstrip_by].
    destruct (int_space a) eqn:Sa; cbn [lstrip_by];
      destruct (int_space b) eqn:Sb; cbn [rev app lstrip_by];
      rewrite ?Sa, ?Sb; cbn [rev app lstrip_by]; rewrite ?Sa, ?Sb;
      cbn [rev app];
      repeat match goal with
             | |- context [if (?x =? ?y)%N then _ else _] =>
                 destruct (x =? y)%N
             end;
      rewrite Hnone; tauto.
Qed.

(** What the passport normaliser makes of six characters: only the
    first two are read as a number. *)
Lemma pp_convert_six (a b c d e f : N) :
  IndianPassport.convert_date [a; b; c; d; e; f]
  = match int_ [a; b] with
    | Some yy =>
        Ok ([e; f] ++ u "/" ++ [c; d] ++ u "/"
            ++ str_of_Z (if (30 <? yy)%Z then 1900 + yy else 2000 + yy)%Z)
    | None => Raise ValueError
    end.
Proof. reflexivity. Qed.

(** X3: on six characters the passport normaliser raises [ValueError]
    exactly when the first two are none of: two digits; a digit and
    white space, either way round; a sign and a digit. The last four
    characters are never looked at. *)
Theorem X3_passport_date_raises_iff (a b c d e f : N) :
  IndianPassport.convert_date [a; b; c; d; e; f] = Raise ValueError
  <-> ~ (is_digit a = true /\ is_digit b = true
         \/ is_digit a = true /\ int_space b = true
         \/ int_space a = true /\ is_digit b = true
         \/ (a = 0x2b%N \/ a = 0x2d%N) /\ is_digit b = true).
Proof.
  rewrite pp_convert_six, int_two_spec. unfold is_digit.
  destruct (decimal a) as [va |] eqn:Da; destruct (decimal b) as [vb |] eqn:Db.
  - split; [discriminate | intros H; exfalso; apply H; now left].
  - destruct (int_space b) eqn:Sb.
    + split; [discriminate | intros H; exfalso; apply H; right; now left].
    + split; [| reflexivity]. intros _ H.
      destruct H as [[_ H] | [[_ H] | [[_ H] | [_ H]]]]; discriminate.
  - destruct (int_space a) eqn:Sa.
    + split; [discriminate |].
      intros H; exfalso; apply H; right; right; now left.
    + destruct (a =? 43)%N eqn:E1.
      { apply N.eqb_eq in E1. split; [discriminate |].
        intros H; exfalso; apply H; right; right; right; tauto. }
      destruct (a =? 45)%N eqn:E2.
      { apply N.eqb_eq in E2. split; [discriminate |].
        intros H; exfalso; apply H; right; right; right; tauto. }
      apply N.eqb_neq in E1, E2.
      split; [| reflexivity]. intros _ H.
      destruct H as [[H _] | [[H _] | [[H _] | [[H | H] _]]]];
        try discriminate; contradiction.
  - split; [| reflexivity]. intros _ H.
    destruct H as [[H _] | [[H _] | [[_ H] | [_ H]]]]; discriminate.
Qed.

(** X4: the passport normaliser takes a minus sign for part of the
    year: "-" and a digit [v] give the year 2000 - v, with the last
    four characters, whatever they are, copied as month and day. *)
Theorem X4_passport_date_minus_year (y c d e f v : N) :
  decimal y = Some v ->
  IndianPassport.convert_date [0x2d%N; y; c; d; e; f]
  = Ok ([e; f] ++ u "/" ++ [c; d] ++ u "/" ++ str_of_Z (2000 - Z.of_N v)).
Proof.
  intros Hy. rewrite pp_convert_six, int_two_spec, Hy.
  change (decimal 45) with (@None N). change (int_space 45) with false.
  cbn [N.eqb Pos.eqb].
  assert (H : (30 <? - Z.of_N v)%Z = false) by (apply Z.ltb_ge; lia).
  rewrite H. reflexivity.
Qed.

Lemma X4_passport_date_minus_year_witness :
  IndianPassport.convert_date (u "-5<<ab") = Ok (u "ab/<</1995").
Proof.
  exact (@X4_passport_date_minus_year 0x35 0x3c 0x3c 0x61 0x62 5 eq_refl).
Defined.

(** ** The MRZ field mappers *)

Lemma pp_extract_mrz_info_cases (rt : runtime) (raw : Dict.dict) :
  match IndianPassport.extract_mrz_info rt (Some raw) with
  | Ok info =>
      exists dob exp,
        IndianPassport.convert_date (IndianPassport.raw_get raw "date_of_birth") = Ok dob
        /\ IndianPassport.convert_date (IndianPassport.raw_get raw "expiration_date") = Ok exp
        /\ Dict.get (u "Date of Birth") info = Some dob
        /\ Dict.get (u "Expiration Date") info = Some exp
        /\ Dict.keys info
           = [ u "Raw MRZ"; u "Country Code (Issued By)"; u "Passport Number";
               u "Last Name"; u "First Name"; u "Nationality";
               u "Date of Birth"; u "Expiration Date"; u "Sex" ]
  | Raise e =>
      IndianPassport.convert_date (IndianPassport.raw_get raw "date_of_birth") = Raise e
      \/ IndianPassport.convert_date (IndianPassport.raw_get raw "expiration_date") = Raise e
  end.
Proof.
  unfold IndianPassport.extract_mrz_info.
  destruct (IndianPassport.convert_date (IndianPassport.raw_get raw "date_of_birth"))
    as [dob | e]; cbn [bind]; [| now left].
  destruct (IndianPassport.convert_date (IndianPassport.raw_get raw "expiration_date"))
    as [exp | e]; cbn [bind]; [| now right].
  rewrite pp_mrz_items. exists dob, exp.
  split; [reflexivity |]. split; [reflexivity |].
  split; [vm_compute; reflexivity |]. split; [vm_compute; reflexivity |].
  reflexivity.
Qed.

Lemma pp_convert_raises_value_error (s : str) (e : exn) :
  IndianPassport.convert_date s = Raise e -> e = ValueError.
Proof.
  unfold IndianPassport.convert_date.
  destruct (negb (Nat.eqb (List.length s) 6)); [discriminate |].
  destruct (int_ (firstn 2 s)); [discriminate | congruence].
Qed.

(** A decoded passport record whose date of birth was not read. *)
Definition raw_unread_birth : Dict.dict :=
  [ (u "surname", u "DUPONT"); (u "names", u "MARIE");
    (u "number", u "12AB34567"); (u "date_of_birth", u "<<<<<<");
    (u "expiration_date", u "300101") ].

(** X5: the passport mapper returns its nine labels, in the order of
    the source, when both dates normalise, and raises [ValueError], so
    that no field at all is returned, as soon as one of the two dates
    makes the normaliser raise. *)
Theorem X5_passport_mapper_all_or_nothing (rt : runtime) (raw : Dict.dict) :
  let dob := IndianPassport.convert_date (IndianPassport.raw_get raw "date_of_birth") in
  let exp := IndianPassport.convert_date (IndianPassport.raw_get raw "expiration_date") in
  (dob = Raise ValueError \/ exp = Raise ValueError ->
   IndianPassport.extract_mrz_info rt (Some raw) = Raise ValueError)
  /\ ((exists d, dob = Ok d) -> (exists d, exp = Ok d) ->
      exists info,
        IndianPassport.extract_mrz_info rt (Some raw) = Ok info
        /\ Dict.keys info
           = [ u "Raw MRZ"; u "Country Code (Issued By)"; u "Passport Number";
               u "Last Name"; u "First Name"; u "Nationality";
               u "Date of Birth"; u "Expiration Date"; u "Sex" ]).
Proof.
  intros dob exp. pose proof (pp_extract_mrz_info_cases rt raw) as H.
  split.
  - intros Hr.
    destruct (IndianPassport.extract_mrz_info rt (Some raw)) as [info | e].
    + destruct H as (d1 & d2 & H1 & H2 & _). fold dob in H1. fold exp in H2.
      destruct Hr as [Hr | Hr]; congruence.
    + f_equal. destruct H as [H | H];
        now apply pp_convert_raises_value_error in H.
  - intros [d1 H1] [d2 H2].
    destruct (IndianPassport.extract_mrz_info rt (Some raw)) as [info | e].
    + destruct H as (_ & _ & _ & _ & _ & _ & Hk). now exists info.
    + fold dob in H. fold exp in H. destruct H; congruence.
Qed.

Lemma X5_passport_mapper_all_or_nothing_witness :
  IndianPassport.extract_mrz_info Sample.rt (Some raw_unread_birth)
  = Raise ValueError.
Proof.
  destruct (X5_passport_mapper_all_or_nothing Sample.rt raw_unread_birth)
    as [H _].
  apply H. left. vm_compute. reflexivity.
Defined.

(** X6: the identity-card mapper raises on no record and returns its
    nine labels, in the order of the source, for every decoded record;
    without a record it returns the empty dict. *)
Theorem X6_idcard_mapper_labels (rt : runtime) (mrz : option Dict.dict) :
  exists info,
    Frenchcarte.extract_mrz_info rt mrz = Ok info
    /\ Dict.keys info
       = match mrz with
         | Some _ =>
             [ u "MRZ brut"; u "Pays de délivrance"; Frenchcarte.k_id;
               Frenchcarte.k_nom; Frenchcarte.k_prenom; Frenchcarte.k_nat;
               Frenchcarte.k_dob; u "Date d'expiration"; Frenchcarte.k_sexe ]
         | None => []
         end.
Proof.
  destruct mrz as [raw |].
  - destruct (fr_extract_mrz_info_some rt raw) as (dob & exp & _ & _ & H).
    eexists. split; [exact H | reflexivity].
  - exists []. split; reflexivity.
Qed.

Lemma fr_mrz_gets (v1 v2 v3 v4 v5 v6 v7 v8 v9 : str) :
  let info :=
    [ (u "MRZ brut", v1); (u "Pays de délivrance", v2);
      (Frenchcarte.k_id, v3); (Frenchcarte.k_nom, v4);
      (Frenchcarte.k_prenom, v5); (Frenchcarte.k_nat, v6);
      (Frenchcarte.k_dob, v7); (u "Date d'expiration", v8);
      (Frenchcarte.k_sexe, v9) ] in
  Dict.get Frenchcarte.k_id info = Some v3
  /\ Dict.get Frenchcarte.k_dob info = Some v7
  /\ Dict.get (u "Date d'expiration") info = Some v8
  /\ Dict.get Frenchcarte.k_sexe info = Some v9.
Proof. repeat split; vm_compute; reflexivity. Qed.

Lemma prenom_of_nonempty (surname names : str) :
  Frenchcarte.prenom_of surname names <> [].
Proof.
  unfold Frenchcarte.prenom_of.
  destruct names as [| c names]; cbn [nonempty]; [discriminate |].
  destruct (nonempty surname && contains surname (c :: names));
    [| discriminate].
  destruct (PyStr.eqb (strip (replace surname [] (c :: names))) []) eqn:E;
    [discriminate |].
  intros H. rewrite H in E. discriminate.
Qed.

(** X7: in every record the identity-card mapper returns, the first
    name and the sex are non-empty strings. *)
Theorem X7_idcard_mapper_no_empty_name_or_sex (rt : runtime) (raw : Dict.dict) :
  exists info prenom sexe,
    Frenchcarte.extract_mrz_info rt (Some raw) = Ok info
    /\ Dict.get Frenchcarte.k_prenom info = Some prenom
    /\ prenom <> []
    /\ Dict.get Frenchcarte.k_sexe info = Some sexe
    /\ sexe <> [].
Proof.
  destruct (fr_extract_mrz_info_some rt raw) as (dob & exp & _ & _ & H).
  eexists. eexists. eexists.
  split; [exact H |].
  split; [apply fr_mrz_get_prenom |].
  split; [apply prenom_of_nonempty |].
  split; [apply fr_mrz_gets |].
  destruct (Frenchcarte.unfilled raw "sex") as [| c s]; cbn [nonempty];
    discriminate.
Qed.

(** ** Filler characters *)

Lemma replace_char_empty (a : N) (s : str) :
  replace [a] [] s = filter (fun c => negb (a =? c)%N) s.
Proof.
  unfold replace. induction s as [| c s IH]; [reflexivity |].
  cbn [replace_scan starts_with filter List.length Nat.sub app].
  rewrite andb_true_r.
  destruct (a =? c)%N; cbn [negb app]; now rewrite IH.
Qed.

Lemma removed_char_absent (a : N) (s : str) : ~ List.In a (replace [a] [] s).
Proof.
  rewrite replace_char_empty. intros H. apply filter_In in H.
  destruct H as [_ H]. now rewrite N.eqb_refl in H.
Qed.

Lemma in_lstrip_by (p : N -> bool) (x : N) (s : str) :
  List.In x (lstrip_by p s) -> List.In x s.
Proof.
  destruct (lstrip_by_suffix p s) as [pre H]. intros Hin.
  rewrite H. apply in_or_app. now right.
Qed.

Lemma in_strip (x : N) (s : str) : List.In x (strip s) -> List.In x s.
Proof.
  unfold strip, strip_by. intros H.
  apply in_rev in H. apply in_lstrip_by in H.
  apply in_rev in H. now apply in_lstrip_by in H.
Qed.

(** The normaliser brings in no character but '/' and digits. *)
Lemma fr_convert_no_new_char (x : N) (s r : str) :
  is_digit x = false -> x <> 0x2f%N ->
  ~ List.In x s ->
  Frenchcarte.convert_date s = Ok r ->
  ~ List.In x r.
Proof.
  intros Hd Hs Hx Hr.
  destruct (fr_convert_cases s) as (r' & Hr' & Hcase).
  assert (r' = r) by congruence. subst r'.
  destruct Hcase as [[_ Hshape] | [_ ->]].
  - destruct Hshape as (d1 & d2 & m1 & m2 & y1 & y2 & y3 & y4 & -> & H).
    decompose [and] H. cbn [List.In].
    intros Hin.
    repeat match goal with
           | Hin : _ \/ _ |- _ => destruct Hin as [<- | Hin]
           end; first [congruence | contradiction].
  - intros Hin. apply Hx. now apply in_strip in Hin.
Qed.

(** X8: the identity-card mapper leaves no filler character '<' in the
    document number, the two dates and the sex. *)
Theorem X8_idcard_mapper_strips_filler (rt : runtime) (raw : Dict.dict) :
  exists info number dob exp sexe,
    Frenchcarte.extract_mrz_info rt (Some raw) = Ok info
    /\ Dict.get Frenchcarte.k_id info = Some number
    /\ Dict.get Frenchcarte.k_dob info = Some dob
    /\ Dict.get (u "Date d'expiration") info = Some exp
    /\ Dict.get Frenchcarte.k_sexe info = Some sexe
    /\ ~ List.In 0x3c%N number /\ ~ List.In 0x3c%N dob
    /\ ~ List.In 0x3c%N exp /\ ~ List.In 0x3c%N sexe.
Proof.
  destruct (fr_extract_mrz_info_some rt raw) as (dob & exp & Hdob & Hexp & H).
  assert (Hunf : forall key, ~ List.In 0x3c%N (Frenchcarte.unfilled raw key)).
  { intros key Hin. unfold Frenchcarte.unfilled in Hin.
    apply in_strip in Hin. change (u "<") with [0x3c%N] in Hin.
    now apply removed_char_absent in Hin. }
  eexists. exists (replace (u "<") [] (Frenchcarte.raw_get raw "number")).
  exists dob, exp. eexists.
  split; [exact H |].
  split; [apply fr_mrz_gets |]. split; [apply fr_mrz_gets |].
  split; [apply fr_mrz_gets |]. split; [apply fr_mrz_gets |].
  split; [change (u "<") with [0x3c%N]; apply removed_char_absent |].
  split; [eapply fr_convert_no_new_char; [reflexivity | discriminate
                                         | apply Hunf | exact Hdob] |].
  split; [eapply fr_convert_no_new_char; [reflexivity | discriminate
                                         | apply Hunf | exact Hexp] |].
  destruct (nonempty (Frenchcarte.unfilled raw "sex")); [apply Hunf |].
  vm_compute. intuition discriminate.
Qed.

(** ** What a successful match tells *)

(** Patterns without a capturing group. *)
Fixpoint groupless (r : regex) : bool :=
  match r with
  | Eps | In _ | Star _ => true
  | Seq a b | Alt a b => groupless a && groupless b
  | Group _ _ => false
  end.

Lemma star_inv (p : N -> bool) (s : str) (k : str -> option caps) (res : caps) :
  star p s k = Some res ->
  exists xs s',
    s = xs ++ s' /\ Forall (fun x => p x = true) xs /\ k s' = Some res.
Proof.
  induction s as [| x s IH]; cbn [star]; intros H.
  - exists [], []. repeat split; [constructor | exact H].
  - destruct (p x) eqn:Hx.
    + destruct (star p s k) as [res' |] eqn:E.
      * injection H as ->. destruct (IH eq_refl) as (xs & s' & -> & Hxs & Hk).
        exists (x :: xs), s'. repeat split; [now constructor | exact Hk].
      * exists [], (x :: s). repeat split; [constructor | exact H].
    + exists [], (x :: s). repeat split; [constructor | exact H].
Qed.

(** A successful run has called its continuation, with the groups
    unchanged when the pattern has none. *)
Lemma run_inv (same : N -> N -> bool) (r : regex) :
  forall (s : str) (m : caps) (k : str -> caps -> option caps) (res : caps),
    run same r s m k = Some res ->
    exists s' m', k s' m' = Some res /\ (groupless r = true -> m' = m).
Proof.
  induction r as [| cs | a IHa b IHb | a IHa b IHb | cs | n a IHa];
    intros s m k res H; cbn [run groupless] in *.
  - now exists s, m.
  - destruct s as [| x s]; [discriminate |].
    destruct (in_set same cs x); [| discriminate]. now exists s, m.
  - apply IHa in H. destruct H as (s1 & m1 & H & Hm1).
    apply IHb in H. destruct H as (s2 & m2 & H & Hm2).
    exists s2, m2. split; [exact H |].
    intros G. apply andb_true_iff in G. destruct G as [Ga Gb].
    now rewrite (Hm2 Gb), (Hm1 Ga).
  - destruct (run same a s m k) as [res' |] eqn:E.
    + injection H as ->. apply IHa in E. destruct E as (s1 & m1 & E & Hm1).
      exists s1, m1. split; [exact E |].
      intros G. apply andb_true_iff in G. now apply Hm1.
    + apply IHb in H. destruct H as (s1 & m1 & H & Hm1).
      exists s1, m1. split; [exact H |].
      intros G. apply andb_true_iff in G. now apply Hm1.
  - apply star_inv in H. destruct H as (xs & s' & _ & _ & H).
    now exists s', m.
  - apply IHa in H. destruct H as (s1 & m1 & H & _).
    eexists. eexists. split; [exact H | discriminate].
Qed.

Lemma seq_groupless_inv (same : N -> N -> bool) (a b : regex) (s : str)
      (m : caps) (k : str -> caps -> option caps) (res : caps) :
  run same (Seq a b) s m k = Some res ->
  groupless a = true ->
  exists s', run same b s' m k = Some res.
Proof.
  intros H G. rewrite run_seq in H. apply run_inv in H.
  destruct H as (s' & m' & H & Hm). rewrite (Hm G) in H. now exists s'.
Qed.

(** A group around [[cs]+] holds a non-empty run of the set. *)
Lemma group_plus_inv (same : N -> N -> bool) (n : nat) (cs : cset) (s : str)
      (m : caps) (k : str -> caps -> option caps) (res : caps) :
  run same (Group n (plus cs)) s m k = Some res ->
  exists x xs s',
    s = x :: xs ++ s'
    /\ in_set same cs x = true
    /\ Forall (fun c => in_set same cs c = true) xs
    /\ k s' ((n, x :: xs) :: m) = Some res.
Proof.
  cbn [run plus]. destruct s as [| x s]; [discriminate |].
  destruct (in_set same cs x) eqn:Hx; [| discriminate].
  intros H. apply star_inv in H. destruct H as (xs & s' & -> & Hxs & H).
  exists x, xs, s'. repeat split; try assumption.
  change (x :: xs ++ s') with ((x :: xs) ++ s') in H.
  now rewrite firstn_length_app in H.
Qed.

Lemma search_inv (same : N -> N -> bool) (r : regex) (s : str) (res : caps) :
  search same r s = Some res ->
  exists i, i <= List.length s /\ match_at same r (skipn i s) = Some res.
Proof.
  induction s as [| x s IH]; cbn [search].
  - destruct (match_at same r []) eqn:E; [| discriminate].
    intros [= ->]. exists 0. split; [reflexivity | exact E].
  - destruct (match_at same r (x :: s)) eqn:E.
    + intros [= ->]. exists 0. split; [cbn; lia | exact E].
    + intros H. destruct (IH H) as (i & Hi & Hm).
      exists (S i). split; [cbn; lia | exact Hm].
Qed.

(** ** The value of the height *)



(** ** The order of the OCR fields *)

(** The label of a pattern, when the pattern was found. *)
Definition label_if (found : option caps) (key : str) : list str :=
  match found with
  | Some _ => [key]
  | None => []
  end.

(** X10: [extract_info_from_ocr_text] raises on no text, and the labels
    of its result are, in this order, those of the patterns found among
    identity number, nationality, surname, first name, sex and date of
    birth, followed by "Taille", which comes last. *)
Theorem X10_ocr_fields_order (rt : runtime) (text : str) :
  exists info,
    Frenchcarte.extract_info_from_ocr_text rt text = Ok info
    /\ Dict.keys info
       = label_if (Frenchcarte.search_i rt Frenchcarte.re_id text) Frenchcarte.k_id
         ++ label_if (Frenchcarte.search_i rt Frenchcarte.re_nat text) Frenchcarte.k_nat
         ++ label_if (Frenchcarte.search_i rt Frenchcarte.re_nom text) Frenchcarte.k_nom
         ++ label_if (Frenchcarte.search_i rt Frenchcarte.re_prenom text) Frenchcarte.k_prenom
         ++ label_if (Frenchcarte.search_i rt Frenchcarte.re_sexe text) Frenchcarte.k_sexe
         ++ label_if (Frenchcarte.search_i rt Frenchcarte.re_dob text) Frenchcarte.k_dob
         ++ [Frenchcarte.k_taille].
Proof.
  unfold Frenchcarte.extract_info_from_ocr_text, Frenchcarte.put_if.
  generalize (Frenchcarte.extract_taille text) as taille. intros taille.
  destruct (Frenchcarte.search_i rt Frenchcarte.re_id text) as [m1 |];
  destruct (Frenchcarte.search_i rt Frenchcarte.re_nat text) as [m2 |];
  destruct (Frenchcarte.search_i rt Frenchcarte.re_nom text) as [m3 |];
  destruct (Frenchcarte.search_i rt Frenchcarte.re_prenom text) as [m4 |];
  destruct (Frenchcarte.search_i rt Frenchcarte.re_sexe text) as [m5 |];
  (destruct (Frenchcarte.search_i rt Frenchcarte.re_dob text) as [m6 |];
   [ destruct (fr_convert_total (Frenchcarte.group_of 1 m6)) as [d Hd];
     rewrite Hd
   | ]);
  cbn [bind label_if app];
  (eexists; split; [reflexivity |]);
  vm_compute; reflexivity.
Qed.

(** ** The merge on any two dicts *)

(** X11: the merge of lines 148 to 152, on any MRZ fields and OCR
    fields: "Taille" carries the value of the second height pass,
    whatever the two dicts hold for it; every other label carries the
    OCR value when the OCR fields have it and the MRZ value otherwise. *)
Theorem X11_final_info_lookup (mrz_info ocr_info : Dict.dict) (taille k : str) :
  wf mrz_info -> wf ocr_info ->
  Dict.get k (Frenchcarte.final_info mrz_info ocr_info taille)
  = if PyStr.eqb Frenchcarte.k_taille k then Some taille
    else match Dict.get k ocr_info with
         | Some v => Some v
         | None => Dict.get k mrz_info
         end.
Proof.
  intros Hm Ho. unfold Frenchcarte.final_info.
  assert (Hseed : (if Dict.truthy mrz_info then Dict.update [] mrz_info else [])
                  = mrz_info).
  { destruct mrz_info as [| kv d]; [reflexivity |].
    cbn [Dict.truthy]. now apply update_empty. }
  rewrite Hseed, get_set, (get_update _ _ Ho). reflexivity.
Qed.

Lemma X11_final_info_lookup_witness :
  Dict.get Frenchcarte.k_taille
    (Frenchcarte.final_info
       [(Frenchcarte.k_sexe, u "M")]
       [(Frenchcarte.k_sexe, u "F"); (Frenchcarte.k_taille, u "1.70")]
       (u "1.75"))
  = Some (u "1.75").
Proof.
  rewrite X11_final_info_lookup.
  - vm_compute. reflexivity.
  - repeat constructor. intros [].
  - repeat constructor; cbn; [intros [H | []]; discriminate | intros []].
Defined.

Lemma get_some_truthy (k v : str) (d : Dict.dict) :
  Dict.get k d = Some v -> Dict.truthy d = true.
Proof. destruct d; [discriminate | reflexivity]. Qed.

(** X12: the application logic raises on no input, and its final
    FieldSet is never empty: it always holds "Taille", with the value
    [extract_taille] gives for the OCR text. The test [if final_info:]
    of line 154 therefore never fails. *)
Theorem X12_final_info_never_empty (rt : runtime) (mrz : option Dict.dict)
        (text : str) :
  exists final,
    Frenchcarte.app rt mrz text = Ok final
    /\ Dict.truthy final = true
    /\ Dict.get Frenchcarte.k_taille final
       = Some (Frenchcarte.extract_taille text).
Proof.
  destruct (fr_extract_mrz_info_wf rt mrz) as (mrz_info & Hmrz & Hwm & _).
  destruct (fr_extract_info_fields rt text) as (ocr_info & Hocr & Hwo & Ht & _).
  exists (Dict.update mrz_info ocr_info).
  assert (Hget : Dict.get Frenchcarte.k_taille (Dict.update mrz_info ocr_info)
                 = Some (Frenchcarte.extract_taille text))
    by (now rewrite (get_update _ _ Hwo), Ht).
  split; [| split; [exact (get_some_truthy _ _ Hget) | exact Hget]].
  unfold Frenchcarte.app. rewrite Hmrz, Hocr. cbn [bind].
  now rewrite (final_info_update Hwm Hwo Ht).
Qed.

(** ** The values the OCR patterns capture *)

Ltac peel H :=
  apply seq_groupless_inv in H; [| vm_compute; reflexivity];
  let tl := fresh "tl" in destruct H as [tl H].

Lemma match_at_id_inv (same : N -> N -> bool) (s : str) (res : caps) :
  match_at same Frenchcarte.re_id s = Some res ->
  exists num,
    res = [(1, num)] /\ num <> [] /\ Forall (fun c => is_digit c = true) num.
Proof.
  unfold match_at, Frenchcarte.re_id, Frenchcarte.colon_gap. intros H.
  do 8 peel H.
  apply group_plus_inv in H.
  destruct H as (x & xs & s' & _ & Hx & Hxs & H).
  injection H as <-. exists (x :: xs).
  split; [reflexivity |]. split; [discriminate |].
  cbn [in_set existsb item_matches] in Hx. rewrite orb_false_r in Hx.
  constructor; [exact Hx |].
  eapply Forall_impl; [| exact Hxs].
  intros c Hc. cbn [in_set existsb item_matches] in Hc.
  now rewrite orb_false_r in Hc.
Qed.

(** X14: an identity number taken from the OCR text is a non-empty
    string of decimal digits. *)
Theorem X14_ocr_id_number_digits (rt : runtime) (text : str)
        (info : Dict.dict) (v : str) :
  Frenchcarte.extract_info_from_ocr_text rt text = Ok info ->
  Dict.get Frenchcarte.k_id info = Some v ->
  v <> [] /\ Forall (fun c => is_digit c = true) v.
Proof.
  intros Hinfo Hget.
  destruct (fr_extract_info_fields rt text) as (info' & Hinfo' & _ & _ & Hid & _).
  assert (info' = info) by congruence. subst info'.
  rewrite Hid in Hget. unfold Frenchcarte.search_i in Hget.
  destruct (search (same_nocase rt) Frenchcarte.re_id text) as [m |] eqn:E;
    [| discriminate].
  cbn [option_map] in Hget. injection Hget as <-.
  apply search_inv in E. destruct E as (i & _ & E).
  apply match_at_id_inv in E. destruct E as (num & -> & Hne & Hnum).
  unfold Frenchcarte.group_of. cbn [group Nat.eqb]. now split.
Qed.

Lemma X14_ocr_id_number_digits_witness :
  exists info,
    Frenchcarte.extract_info_from_ocr_text Sample.rt
      (u "carte nationale d'identite ne 0042") = Ok info
    /\ Dict.get Frenchcarte.k_id info = Some (u "0042")
    /\ Forall (fun c => is_digit c = true) (u "0042").
Proof.
  eexists. split; [vm_compute; reflexivity |].
  split; [vm_compute; reflexivity |].
  eapply (@X14_ocr_id_number_digits Sample.rt
            (u "carte nationale d'identite ne 0042")).
  - vm_compute. reflexivity.
  - vm_compute. reflexivity.
Defined.

(** The date a group around the delimited pattern holds. *)
Lemma group_dmy_inv (same : N -> N -> bool) (s : str) (m : caps)
      (k : str -> caps -> option caps) (res : caps) :
  run same
    (Group 1
       (Seq (times 2 (In [Digit]))
       (Seq (In [Lit 0x2e; Lit 0x2f; Lit 0x2d])
       (Seq (times 2 (In [Digit]))
       (Seq (In [Lit 0x2e; Lit 0x2f; Lit 0x2d])
            (times 4 (In [Digit])))))))
    s m k = Some res ->
  exists d1 d2 s1 m1 m2 s2 y1 y2 y3 y4 rest,
    s = [d1; d2; s1; m1; m2; s2; y1; y2; y3; y4] ++ rest
    /\ is_digit d1 = true /\ is_digit d2 = true
    /\ in_set same [Lit 0x2e; Lit 0x2f; Lit 0x2d] s1 = true
    /\ is_digit m1 = true /\ is_digit m2 = true
    /\ in_set same [Lit 0x2e; Lit 0x2f; Lit 0x2d] s2 = true
    /\ is_digit y1 = true /\ is_digit y2 = true
    /\ is_digit y3 = true /\ is_digit y4 = true
    /\ k rest ((1, [d1; d2; s1; m1; m2; s2; y1; y2; y3; y4]) :: m) = Some res.
Proof.
  destruct s as [| d1 [| d2 [| s1 [| m1 [| m2 [| s2 [| y1 [| y2 [| y3
                [| y4 rest]]]]]]]]]];
    cbn [run times];
    repeat match goal with
           | |- context [if ?c then _ else _] => destruct c eqn:?
           end; try discriminate.
  intros H.
  change (d1 :: d2 :: s1 :: m1 :: m2 :: s2 :: y1 :: y2 :: y3 :: y4 :: rest)
    with ([d1; d2; s1; m1; m2; s2; y1; y2; y3; y4] ++ rest) in H.
  rewrite firstn_length_app in H.
  repeat match goal with
         | E : in_set same [Digit] _ = true |- _ =>
             cbn [in_set existsb item_matches] in E; rewrite orb_false_r in E
         end.
  exists d1, d2, s1, m1, m2, s2, y1, y2, y3, y4, rest.
  repeat split; assumption.
Qed.

Lemma match_at_dob_inv (same : N -> N -> bool) (s : str) (res : caps) :
  match_at same Frenchcarte.re_dob s = Some res ->
  exists d1 d2 s1 m1 m2 s2 y1 y2 y3 y4,
    res = [(1, [d1; d2; s1; m1; m2; s2; y1; y2; y3; y4])]
    /\ is_digit d1 = true /\ is_digit d2 = true
    /\ in_set same [Lit 0x2e; Lit 0x2f; Lit 0x2d] s1 = true
    /\ is_digit m1 = true /\ is_digit m2 = true
    /\ in_set same [Lit 0x2e; Lit 0x2f; Lit 0x2d] s2 = true
    /\ is_digit y1 = true /\ is_digit y2 = true
    /\ is_digit y3 = true /\ is_digit y4 = true.
Proof.
  unfold match_at, Frenchcarte.re_dob. cbv zeta. intros H.
  do 10 peel H.
  apply group_dmy_inv in H.
  destruct H as (d1 & d2 & s1 & m1 & m2 & s2 & y1 & y2 & y3 & y4 & rest
                 & _ & H).
  decompose [and] H.
  match goal with E : Some _ = Some res |- _ => injection E as <- end.
  exists d1, d2, s1, m1, m2, s2, y1, y2, y3, y4.
  repeat split; assumption.
Qed.

(** The separators '.', '/' and '-' have no case: a runtime compares
    them exactly, also when it ignores case. *)
Definition exact_on_separators (rt : runtime) : Prop :=
  forall c x,
    List.In c [0x2e; 0x2f; 0x2d]%N -> same_nocase rt c x = (c =? x)%N.

Lemma sample_exact_on_separators : exact_on_separators Sample.rt.
Proof.
  intros c x Hc. cbn [same_nocase Sample.rt].
  assert (Hlow : Sample.to_lower c = c)
    by (destruct Hc as [<- | [<- | [<- | []]]]; reflexivity).
  assert (Hsmall : (c < 65)%N)
    by (destruct Hc as [<- | [<- | [<- | []]]]; reflexivity).
  rewrite Hlow. unfold Sample.to_lower, Sample.is_upper.
  destruct ((65 <=? x) && (x <=? 90))%N eqn:E; [| reflexivity].
  apply andb_true_iff in E. destruct E as [E1 _]. apply N.leb_le in E1.
  destruct (N.eqb_spec c (x + 32)); destruct (N.eqb_spec c x);
    try reflexivity; lia.
Qed.

Lemma sep_of_exact (rt : runtime) (x : N) :
  exact_on_separators rt ->
  in_set (same_nocase rt) [Lit 0x2e; Lit 0x2f; Lit 0x2d] x = true ->
  is_sep x = true.
Proof.
  intros Hex H. unfold is_sep.
  cbn [in_set existsb item_matches] in *.
  rewrite !Hex in H by (cbn; tauto). exact H.
Qed.

(** X13: when case-insensitive matching compares the separators '.',
    '/' and '-' exactly, a date of birth taken from the OCR text is
    always written DD/MM/YYYY with '/': the date the pattern captures
    is one the normaliser rewrites, never one it returns as it is. *)
Theorem X13_ocr_birth_date_normalised (rt : runtime) (text : str)
        (info : Dict.dict) (d : str) :
  exact_on_separators rt ->
  Frenchcarte.extract_info_from_ocr_text rt text = Ok info ->
  Dict.get Frenchcarte.k_dob info = Some d ->
  exists d1 d2 m1 m2 y1 y2 y3 y4,
    d = [d1; d2; 0x2f; m1; m2; 0x2f; y1; y2; y3; y4]%N
    /\ forallb is_digit [d1; d2; m1; m2; y1; y2; y3; y4] = true.
Proof.
  intros Hex Hinfo Hget.
  destruct (fr_extract_info_fields rt text)
    as (info' & Hinfo' & _ & _ & _ & _ & _ & _ & _ & Hdob).
  assert (info' = info) by congruence. subst info'.
  unfold Frenchcarte.search_i in Hdob.
  destruct (search (same_nocase rt) Frenchcarte.re_dob text) as [m |] eqn:E;
    [| congruence].
  destruct Hdob as (d' & Hconv & Hget').
  assert (d' = d) by congruence. subst d'.
  apply search_inv in E. destruct E as (i & _ & E).
  apply match_at_dob_inv in E.
  destruct E as (d1 & d2 & s1 & m1 & m2 & s2 & y1 & y2 & y3 & y4 & -> & H).
  decompose [and] H.
  unfold Frenchcarte.group_of in Hconv. cbn [group Nat.eqb] in Hconv.
  rewrite fr_convert_dmy in Hconv
    by (first [assumption | eapply sep_of_exact; eassumption]).
  injection Hconv as <-.
  exists d1, d2, m1, m2, y1, y2, y3, y4. split; [reflexivity |].
  cbn [forallb].
  repeat match goal with E : is_digit _ = true |- _ => rewrite E; clear E end.
  reflexivity.
Qed.

Lemma X13_ocr_birth_date_normalised_witness :
  exists info d,
    Frenchcarte.extract_info_from_ocr_text Sample.rt (u "NE LE 01-02.1990") = Ok info
    /\ Dict.get Frenchcarte.k_dob info = Some d
    /\ exists d1 d2 m1 m2 y1 y2 y3 y4,
         d = [d1; d2; 0x2f; m1; m2; 0x2f; y1; y2; y3; y4]%N
         /\ forallb is_digit [d1; d2; m1; m2; y1; y2; y3; y4] = true.
Proof.
  eexists. eexists.
  split; [vm_compute; reflexivity |].
  split; [vm_compute; reflexivity |].
  eapply (@X13_ocr_birth_date_normalised Sample.rt (u "NE LE 01-02.1990")).
  - exact sample_exact_on_separators.
  - vm_compute. reflexivity.
  - vm_compute. reflexivity.
Defined.
